(** * IntentionMail-AI: the e-mail cleaning and classification pipeline

    A shallow embedding of [backend/app.py]: the text cleaner
    ([clean_email_text]), the document decoder ([read_pdf],
    [read_file_bytes_to_text]), the post-processing of the model's answer
    ([parse_json_strict], [normalize_intent], [classify_with_gemini]) and the
    two request handlers ([analyze], [analyze_batch]).

    Conventions.
    - A Python [str] is a list of characters, each a code point in 0..255
      (the Latin-1 block, which [str.lower] maps to itself): the texts of
      this development are the Latin-1 texts, and a statement about a
      string is a statement about those.  On that block the character
      classes below are those of Python 3: [str.isspace], which is [\s] of
      [re] and what [str.strip] trims, the boundaries of [str.splitlines],
      [\w], [str.lower], and the letters [re.I] identifies.  Beyond it
      they differ: [re.I], for one, also lets U+017F stand for [s] and
      U+0130 and U+0131 for [i].
    - A Python [bytes] is a list of bytes; a [float] is an IEEE 754
      binary64 number.
    - Code that can raise returns a [result]; [try]/[except Exception] is
      [try_except].  Only instances of [Exception] are modelled.
    - The libraries the program calls (BeautifulSoup, PyPDF2, pdfminer, the
      UTF-8 codec, [json.loads], [float] on a string, the Gemini client) are
      the fields of a record, [library], that every function of the program
      takes: a statement about the program holds whatever they return or
      raise.  Each of them can raise, BeautifulSoup included.
    - A request handler returns its result together with the list of its
      effects, the uploads it read and the calls it made to the model, in
      the order they happen.  The result is what [JSONResponse] makes of
      the handler's dictionary: rendering it raises when a number in it is
      not finite, and encoding the rendered body is a call of a library.
      [print] diagnostics are not modelled. *)

From Stdlib Require Import Ascii String.
From Stdlib Require Import List Bool Arith ZArith NArith Lia.
From Stdlib Require Import SpecFloat DecimalString DecimalNat.
Import ListNotations.
Open Scope string_scope.
Open Scope list_scope.
Open Scope nat_scope.

Set Warnings "-register-all".

(** ** Strings *)

Definition str := list ascii.

Definition lit (s : string) : str := list_ascii_of_string s.
Coercion lit : string >-> str.

Definition code (c : ascii) : N := N_of_ascii c.

Definition in_range (lo hi : N) (c : ascii) : bool :=
  ((lo <=? code c) && (code c <=? hi))%N.

Definition is_code (n : N) (c : ascii) : bool := (code c =? n)%N.

(** [str.isspace], which is also [\s] of [re] and what [str.strip] trims. *)
Definition is_space (c : ascii) : bool :=
  in_range 9 13 c || in_range 28 32 c || is_code 133 c || is_code 160 c.

(** The line boundaries of [str.splitlines]. *)
Definition is_linebreak (c : ascii) : bool :=
  in_range 10 13 c || in_range 28 30 c || is_code 133 c.

(** [str.isalnum]. *)
Definition is_alnum (c : ascii) : bool :=
  in_range 48 57 c || in_range 65 90 c || in_range 97 122 c
  || is_code 170 c || in_range 178 179 c || is_code 181 c
  || in_range 185 186 c || in_range 188 190 c
  || in_range 192 214 c || in_range 216 246 c || in_range 248 255 c.

(** [\w] of [re]. *)
Definition is_word (c : ascii) : bool := is_alnum c || is_code 95 c.

(** One character of [str.lower]. *)
Definition lower_char (c : ascii) : ascii :=
  if in_range 65 90 c || ((in_range 192 222 c) && negb (is_code 215 c))
  then ascii_of_N (code c + 32) else c.

Definition lower (s : str) : str := map lower_char s.

Definition ascii_eqb (a b : ascii) : bool := Ascii.eqb a b.

Fixpoint str_eqb (a b : str) : bool :=
  match a, b with
  | [], [] => true
  | x :: a', y :: b' => ascii_eqb x y && str_eqb a' b'
  | _, _ => false
  end.

(** [s.startswith(p)]. *)
Fixpoint startswith (p s : str) : bool :=
  match p, s with
  | [], _ => true
  | x :: p', y :: s' => ascii_eqb x y && startswith p' s'
  | _ :: _, [] => false
  end.

(** [s.endswith(p)]. *)
Definition endswith (p s : str) : bool := startswith (rev p) (rev s).

(** [p in s]. *)
Fixpoint contains (p s : str) : bool :=
  startswith p s || match s with [] => false | _ :: s' => contains p s' end.

Fixpoint lstrip (s : str) : str :=
  match s with
  | [] => []
  | c :: s' => if is_space c then lstrip s' else s
  end.

Fixpoint rstrip (s : str) : str :=
  match s with
  | [] => []
  | c :: s' =>
      match rstrip s' with
      | [] => if is_space c then [] else [c]
      | r => c :: r
      end
  end.

(** [s.strip()]. *)
Definition strip (s : str) : str := rstrip (lstrip s).

Definition CR : ascii := ascii_of_N 13.
Definition LF : ascii := ascii_of_N 10.

(** [s.splitlines()]: [cur] is the current line, reversed.  A carriage
    return followed by a line feed is one boundary, and a last line is kept
    only when it is not empty. *)
Fixpoint splitlines_from (cur s : str) : list str :=
  match s with
  | [] => match cur with [] => [] | _ => [rev cur] end
  | c :: s' =>
      if is_linebreak c then
        match s' with
        | c' :: s'' =>
            if ascii_eqb c CR && ascii_eqb c' LF
            then rev cur :: splitlines_from [] s''
            else rev cur :: splitlines_from [] s'
        | [] => rev cur :: splitlines_from [] s'
        end
      else splitlines_from (c :: cur) s'
  end.

Definition splitlines (s : str) : list str := splitlines_from [] s.

(** [sep.join(parts)]. *)
Fixpoint join (sep : str) (parts : list str) : str :=
  match parts with
  | [] => []
  | [p] => p
  | p :: rest => p ++ sep ++ join sep rest
  end.

Fixpoint takewhile (p : ascii -> bool) (s : str) : str :=
  match s with
  | [] => []
  | c :: s' => if p c then c :: takewhile p s' else []
  end.

(** ** Regular expressions

    [re.sub(pattern, repl, s)] scans [s] from the left: where the pattern
    matches, the match is replaced and the scan goes on behind it; elsewhere
    one character is copied.  A pattern is given by [m], the length of its
    match at the head of a string (none of the patterns here matches the
    empty string). *)

Fixpoint re_sub_fuel (m : str -> option nat) (repl : str) (fuel : nat) (s : str) : str :=
  match fuel with
  | O => s
  | S fuel' =>
      match s with
      | [] => []
      | c :: s' =>
          match m s with
          | Some k => repl ++ re_sub_fuel m repl fuel' (skipn (k - 1) s')
          | None => c :: re_sub_fuel m repl fuel' s'
          end
      end
  end.

Definition re_sub (m : str -> option nat) (repl s : str) : str :=
  re_sub_fuel m repl (length s) s.

Definition nonspace (c : ascii) : bool := negb (is_space c).

(** [https?://\S+] at the head of [s]. *)
Definition url_match (s : str) : option nat :=
  let after (p : str) :=
    match skipn (length p) s with
    | (c :: _) as rest =>
        if nonspace c then Some (length p + length (takewhile nonspace rest)) else None
    | [] => None
    end in
  if startswith "http://" s then after (lit "http://")
  else if startswith "https://" s then after (lit "https://")
  else None.

(** The characters [[^\w\s\-.,!?;:()]] does not match. *)
Definition is_punct (c : ascii) : bool :=
  existsb (ascii_eqb c) (lit "-.,!?;:()").

Definition allowed (c : ascii) : bool := is_word c || is_space c || is_punct c.

(** [[^\w\s\-.,!?;:()]] at the head of [s]. *)
Definition noise_match (s : str) : option nat :=
  match s with
  | c :: _ => if allowed c then None else Some 1
  | [] => None
  end.

(** [\s{2,}] at the head of [s]. *)
Definition spaces_match (s : str) : option nat :=
  let k := length (takewhile is_space s) in
  if 2 <=? k then Some k else None.

(** The alternatives of [HEADER_RE]. *)
Definition header_names : list str :=
  [lit "from"; lit "de"; lit "to"; lit "para"; lit "subject"; lit "assunto";
   lit "date"; lit "data"; lit "cc"; lit "bcc"; lit "reply-to";
   lit "message-id"; lit "received"].

(** [HEADER_RE.match(line)]: [^(from|...)\s*:] with [re.I], on a Latin-1
    line.  The match is anchored at the start; some alternative must be a
    prefix of the line up to case, followed by any white space and a
    colon. *)
Definition header_match (line : str) : bool :=
  existsb
    (fun name =>
       startswith name (lower (firstn (length name) line))
       && startswith ":" (lstrip (skipn (length name) line)))
    header_names.

(** ** Exceptions and results

    Every exception below is an instance of Python's [Exception], so an
    [except Exception] clause catches each of them. *)

Inductive exn_kind :=
| ValueError | TypeError | AttributeError | OverflowError | RuntimeError
| LibraryError.

Inductive exn :=
| Exc (kind : exn_kind) (msg : str)
| HTTPException (status_code : nat) (detail : str).

Inductive result (A : Type) :=
| Ok (a : A)
| Raise (e : exn).

Arguments Ok {A} a.
Arguments Raise {A} e.

Definition bind {A B : Type} (r : result A) (k : A -> result B) : result B :=
  match r with
  | Ok a => k a
  | Raise e => Raise e
  end.

Notation "x <- r ;; k" := (bind r (fun x => k))
  (at level 61, r at next level, right associativity).

(** [try: body / except Exception as e: handler]. *)
Definition try_except {A : Type} (body : result A) (handler : exn -> result A) : result A :=
  match body with
  | Ok a => Ok a
  | Raise e => handler e
  end.

Definition raised {A : Type} (r : result A) : Prop :=
  match r with
  | Ok _ => False
  | Raise _ => True
  end.

(** The decimal numeral of [n], as [str(n)] prints it. *)
Definition decimal (n : nat) : str := lit (NilEmpty.string_of_uint (Nat.to_uint n)).

(** [str(e)]. *)
Definition exn_str (e : exn) : str :=
  match e with
  | Exc _ msg => msg
  | HTTPException status detail => decimal status ++ lit ": " ++ detail
  end.

(** A character given by its code point. *)
Definition chr (n : N) : str := [ascii_of_N n].

(** ** Floating-point numbers: IEEE 754 binary64 *)

Definition float := spec_float.

Definition float_zero : float := S754_zero false.
Definition float_one : float := S754_finite false 4503599627370496 (-52).
(** The literal [0.7]. *)
Definition float_0_7 : float := S754_finite false 6305039478318694 (-53).

(** [float(z)] for an [int]: rounded to nearest, and an error when the
    integer is beyond the range of a double. *)
Definition float_of_int (z : Z) : result float :=
  match binary_normalize 53 1024 z 0 false with
  | S754_infinity _ => Raise (Exc OverflowError "int too large to convert to float")
  | f => Ok f
  end.

(** [0 <= f <= 1]. *)
Definition in_unit_interval (f : float) : bool :=
  SFleb float_zero f && SFleb f float_one.

(** ** JSON values, as [json.loads] builds them

    An object is a [dict]: [items] lists its keys, each once. *)

Inductive json :=
| JNull
| JBool (b : bool)
| JInt (z : Z)
| JFloat (f : float)
| JStr (s : str)
| JArr (elems : list json)
| JObj (items : list (str * json)).

Definition type_name (v : json) : str :=
  match v with
  | JNull => "NoneType"
  | JBool _ => "bool"
  | JInt _ => "int"
  | JFloat _ => "float"
  | JStr _ => "str"
  | JArr _ => "list"
  | JObj _ => "dict"
  end.

(** [bool(v)]. *)
Definition truthy (v : json) : bool :=
  match v with
  | JNull => false
  | JBool b => b
  | JInt z => negb (z =? 0)%Z
  | JFloat (S754_zero _) => false
  | JFloat _ => true
  | JStr [] => false
  | JStr _ => true
  | JArr [] => false
  | JArr _ => true
  | JObj [] => false
  | JObj _ => true
  end.

Fixpoint lookup (key : str) (items : list (str * json)) : option json :=
  match items with
  | [] => None
  | (k, v) :: rest => if str_eqb k key then Some v else lookup key rest
  end.

Definition no_attribute (v : json) (attr : str) : exn :=
  Exc AttributeError
      (lit "'" ++ type_name v ++ lit "' object has no attribute '" ++ attr ++ lit "'").

(** [data.get(key)], with [None] for a missing key. *)
Definition dict_get (data : json) (key : str) : result (option json) :=
  match data with
  | JObj items => Ok (lookup key items)
  | _ => Raise (no_attribute data "get")
  end.

Definition or_default (o : option json) (d : json) : json :=
  match o with
  | Some v => v
  | None => d
  end.

(** ** Bytes and uploads *)

Definition bytes := list Byte.byte.

(** [data.decode('latin-1')]: each byte is its own code point. *)
Definition decode_latin1 (data : bytes) : str := map ascii_of_byte data.

(** An [UploadFile]: its name and what [await file.read()] returns. *)
Record upload_file := {
  filename : option str;
  file_bytes : bytes
}.

(** ** The model's answer *)

(** A response of the Gemini client: what reading [resp.text] gives, and
    what reading [resp.candidates[0].content.parts[0].text] gives. *)
Record response := {
  resp_text : result str;
  resp_first_part_text : result str
}.

(** The dictionary [classify_with_gemini] returns; [intent] is
    [metadata.intent]. *)
Record classification := {
  category : str;
  confidence : float;
  suggested_reply : str;
  intent : str
}.

Record batch_item := {
  item_id : str;
  item_content : str
}.

(** A classification with the ["id"] key the batch adds. *)
Record batch_result := {
  result_id : str;
  result_body : classification
}.

Record batch_response := {
  count : nat;
  results : list batch_result
}.

(** What a request does besides computing: it reads uploads and calls the
    model. *)
Inductive event :=
| FileRead (name : option str)
| ModelCall (content : str).

(** ** The libraries the program calls *)

Record library := {
  (** [BeautifulSoup(text, "html.parser").get_text(" ", strip=True)]; the
      parser rejects some markup with an exception *)
  strip_html : str -> result str;
  (** [PdfReader(io.BytesIO(data))] and the join of its pages' texts *)
  pypdf2_extract_text : bytes -> result str;
  (** [pdfminer_extract_text(io.BytesIO(data)) or ""] *)
  pdfminer_extract_text : bytes -> result str;
  (** [data.decode("utf-8", errors="ignore")] *)
  decode_utf8_ignore : bytes -> result str;
  (** [json.loads] *)
  json_loads : str -> result json;
  (** [float(s)] for a string [s] *)
  float_of_str : str -> result float;
  (** [MODEL.generate_content] on the prompt [build_user_prompt] makes of
      the e-mail text, with the generation settings of the program *)
  generate_content : str -> result response;
  (** [body.encode("utf-8")] for the body of a response that holds the
      texts [texts]: the encoder raises on a lone surrogate, which an
      escape in the model's answer can put into a text *)
  encode_body : list str -> result unit
}.

(** ** The text cleaner *)

Definition looks_like_html (raw : str) : bool :=
  contains "<html" (lower raw) || contains "<div" (lower raw)
  || contains "<br" (lower raw).

(** The body of the loop over the lines: [true] when the line is appended. *)
Definition keep_line (line : str) : bool :=
  match line with
  | [] => false
  | _ =>
      if header_match line then false
      else if startswith ">" line then false
      else if length line <? 3 then false
      else true
  end.

(** ** Constants of the program *)

Definition PRODUTIVO : str := "Produtivo".
Definition IMPRODUTIVO : str := "Improdutivo".
Definition OUTROS : str := "outros".
(** ["dúvida"] and ["felicitações"]. *)
Definition DUVIDA : str := lit "d" ++ chr 250 ++ lit "vida".
Definition FELICITACOES : str := lit "felicita" ++ chr 231 ++ chr 245 ++ lit "es".

Definition intents : list str :=
  [lit "status"; lit "anexo"; lit "suporte"; DUVIDA; FELICITACOES;
   lit "agradecimento"; OUTROS].

Definition intent_mapping : list (str * str) :=
  [(lit "duvida", DUVIDA); (lit "agradecimentos", lit "agradecimento");
   (lit "felicitacao", FELICITACOES); (lit "felicitacoes", FELICITACOES)].

Definition DEFAULT_REPLY : str := "Obrigado pela mensagem!".

(** ["Resposta não contém JSON."] *)
Definition NO_JSON : str :=
  lit "Resposta n" ++ chr 227 ++ lit "o cont" ++ chr 233 ++ lit "m JSON.".

(** ["Não foi possível ler a resposta do Gemini."] *)
Definition NO_RESPONSE : str :=
  lit "N" ++ chr 227 ++ lit "o foi poss" ++ chr 237
  ++ lit "vel ler a resposta do Gemini.".

Definition SEND_SOMETHING : str := "Envie um texto ou um arquivo .txt/.pdf.".

(** ["Formato não suportado. Envie .txt ou .pdf."] *)
Definition UNSUPPORTED : str :=
  lit "Formato n" ++ chr 227 ++ lit "o suportado. Envie .txt ou .pdf.".

(** ["Conteúdo vazio."] *)
Definition EMPTY_CONTENT : str := lit "Conte" ++ chr 250 ++ lit "do vazio.".

Definition NOT_A_LIST : str := "Campo 'texts' deve ser uma lista".

(** ["Campo 'texts' deve ser JSON válido (lista de strings). Erro: "] *)
Definition BAD_TEXTS : str :=
  lit "Campo 'texts' deve ser JSON v" ++ chr 225
  ++ lit "lido (lista de strings). Erro: ".

(** ["Nenhum item válido para analisar. Verifique se os arquivos são
    .txt/.pdf válidos e contêm texto."] *)
Definition NO_ITEMS : str :=
  lit "Nenhum item v" ++ chr 225
  ++ lit "lido para analisar. Verifique se os arquivos s" ++ chr 227
  ++ lit "o .txt/.pdf v" ++ chr 225 ++ lit "lidos e cont" ++ chr 234
  ++ lit "m texto.".

Definition ERROR_PREFIX : str := "Erro ao processar: ".

(** [s in options], for strings. *)
Definition str_in (s : str) (options : list str) : bool := existsb (str_eqb s) options.

(** [mapping.get(v, v)] *)
Fixpoint mapping_get (mapping : list (str * str)) (v : str) : str :=
  match mapping with
  | [] => v
  | (k, w) :: rest => if str_eqb k v then w else mapping_get rest v
  end.

(** [s.find(p)]: the least index where [p] starts, or -1. *)
Fixpoint find_from (p s : str) (i : Z) : Z :=
  if startswith p s then i
  else match s with
       | [] => (-1)%Z
       | _ :: s' => find_from p s' (i + 1)%Z
       end.

Definition find (p s : str) : Z := find_from p s 0.

(** [s.rfind(p)]: the greatest index where [p] starts, or -1. *)
Fixpoint rfind_from (p s : str) (i : Z) : Z :=
  let later := match s with
               | [] => (-1)%Z
               | _ :: s' => rfind_from p s' (i + 1)%Z
               end in
  if (later =? -1)%Z then (if startswith p s then i else (-1)%Z) else later.

Definition rfind (p s : str) : Z := rfind_from p s 0.

(** [s[a:b]] for indices that are not negative. *)
Definition slice (s : str) (a b : Z) : str :=
  firstn (Z.to_nat (b - a)%Z) (skipn (Z.to_nat a) s).

(** [enumerate(l)] *)
Definition enumerate {A : Type} (l : list A) : list (nat * A) :=
  combine (seq 0 (length l)) l.

(** [name.lower().endswith((".pdf", ".txt"))] *)
Definition supported_name (name : str) : bool :=
  endswith ".pdf" (lower name) || endswith ".txt" (lower name).

Definition option_truthy (o : option str) : bool :=
  match o with
  | Some (_ :: _) => true
  | _ => false
  end.

Definition is_empty (s : str) : bool :=
  match s with
  | [] => true
  | _ => false
  end.

(** One strategy of [read_pdf]: either the function returns a text, or the
    next strategy is tried. *)
Inductive outcome :=
| Returned (content : str)
| NextStrategy.

(** [try: content = ...; if accept(content): return content
    except Exception: print(...)] *)
Definition attempt (r : result str) (accept : str -> bool) : outcome :=
  match r with
  | Ok content => if accept content then Returned content else NextStrategy
  | Raise _ => NextStrategy
  end.

(** [content.strip()] is not empty. *)
Definition has_content (content : str) : bool := negb (is_empty (strip content)).

(** [text_content and len(text_content.strip()) > 100] *)
Definition long_enough (text_content : str) : bool :=
  negb (is_empty text_content) && (100 <? length (strip text_content)).

(** The placeholder the batch stores for an item whose classification
    raised [e]. *)
Definition degraded (id : str) (e : exn) : batch_result :=
  {| result_id := id;
     result_body :=
       {| category := IMPRODUTIVO;
          confidence := float_zero;
          suggested_reply := ERROR_PREFIX ++ exn_str e;
          intent := OUTROS |} |}.

(** ** The response

    The values of the dictionaries the handlers render: numbers, which are
    [float]s besides the count of a batch, and texts. *)

Definition is_finite (f : float) : bool :=
  match f with
  | S754_zero _ | S754_finite _ _ _ => true
  | S754_infinity _ | S754_nan => false
  end.

(** The message of [json.dumps] in Python 3.11. *)
Definition OUT_OF_RANGE : str := "Out of range float values are not JSON compliant".

(** The numbers and the texts in the dictionary [classify_with_gemini]
    returns. *)
Definition classification_floats (r : classification) : list float := [confidence r].

Definition classification_texts (r : classification) : list str :=
  [category r; suggested_reply r; intent r].

(** The numbers, besides the count, and the texts in
    [{"count": ..., "results": ...}], result by result; within a result
    their order, that of the keys, does not matter to the rendering. *)
Definition batch_floats (r : batch_response) : list float :=
  map (fun x => confidence (result_body x)) (results r).

Definition batch_texts (r : batch_response) : list str :=
  flat_map (fun x => classification_texts (result_body x) ++ [result_id x]) (results r).

(** A loop that appends to a list: it stops at the first exception of its
    body. *)
Fixpoint for_each {A B : Type} (body : A -> result (list B)) (l : list A)
  : result (list B) :=
  match l with
  | [] => Ok []
  | x :: rest =>
      appended <- body x ;;
      later <- for_each body rest ;;
      Ok (appended ++ later)
  end.

Section Program.

Variable env : library.

Definition clean_email_text (raw : str) : result str :=
  match raw with
  | [] => Ok []
  | _ =>
      raw <- (if looks_like_html raw then strip_html env raw else Ok raw) ;;
      let lines := filter keep_line (map strip (splitlines raw)) in
      match lines with
      | [] => Ok []
      | _ =>
          let text := join " " lines in
          let text := re_sub url_match " " text in
          let text := re_sub noise_match " " text in
          let text := re_sub spaces_match " " text in
          let text := strip text in
          if length text <? 10 then Ok [] else Ok text
      end
  end.

(** *** The document decoder *)

Definition read_pdf (data : bytes) : result str :=
  match attempt (pypdf2_extract_text env data) has_content with
  | Returned content => Ok content
  | NextStrategy =>
  match attempt (pdfminer_extract_text env data) has_content with
  | Returned content => Ok content
  | NextStrategy =>
  match attempt (decode_utf8_ignore env data) long_enough with
  | Returned text_content => Ok text_content
  | NextStrategy =>
  match attempt (Ok (decode_latin1 data)) long_enough with
  | Returned text_content => Ok text_content
  | NextStrategy => Ok []
  end end end end.

Definition read_file_bytes_to_text (name : str) (data : bytes) : result str :=
  if endswith ".pdf" (lower name) then read_pdf data
  else try_except (decode_utf8_ignore env data)
                  (fun _ => Ok (decode_latin1 data)).

(** *** The classification client *)

Definition normalize_intent (v : json) : result str :=
  if negb (truthy v) then Ok OUTROS
  else match v with
       | JStr s =>
           let v := lower (strip s) in
           let v := mapping_get intent_mapping v in
           Ok (if str_in v intents then v else OUTROS)
       | _ => Raise (no_attribute v "strip")
       end.

Definition parse_json_strict (text : str) : result json :=
  let start := find "{" text in
  let end_ := rfind "}" text in
  if ((start =? -1) || (end_ =? -1) || (end_ <=? start))%Z
  then Raise (Exc ValueError NO_JSON)
  else json_loads env (slice text start (end_ + 1)%Z).

(** [category not in {"Produtivo", "Improdutivo"}]: a list or a dict cannot
    be hashed. *)
Definition not_a_category (v : json) : result bool :=
  match v with
  | JArr _ | JObj _ =>
      Raise (Exc TypeError (lit "unhashable type: '" ++ type_name v ++ lit "'"))
  | JStr s => Ok (negb (str_in s [PRODUTIVO; IMPRODUTIVO]))
  | _ => Ok true
  end.

(** [float(v)] *)
Definition py_float (v : json) : result float :=
  match v with
  | JBool b => Ok (if b then float_one else float_zero)
  | JInt z => float_of_int z
  | JFloat f => Ok f
  | JStr s => float_of_str env s
  | _ =>
      Raise (Exc TypeError
                 (lit "float() argument must be a string or a real number, not '"
                  ++ type_name v ++ lit "'"))
  end.

(** The statements of [classify_with_gemini] that follow
    [data = parse_json_strict(output_text)]. *)
Definition classification_of (data : json) : result classification :=
  c <- dict_get data "category" ;;
  let c := or_default c (JStr IMPRODUTIVO) in
  replace <- not_a_category c ;;
  let category := match c with
                  | JStr s => if replace then IMPRODUTIVO else s
                  | _ => IMPRODUTIVO
                  end in
  i <- dict_get data "intent" ;;
  intent <- normalize_intent (or_default i JNull) ;;
  f <- dict_get data "confidence" ;;
  conf <- py_float (or_default f (JFloat float_0_7)) ;;
  r <- dict_get data "suggested_reply" ;;
  let r := or_default r JNull in
  let r := if truthy r then r else JStr [] in
  reply <- match r with
           | JStr s => Ok (strip s)
           | _ => Raise (no_attribute r "strip")
           end ;;
  let reply := if is_empty reply then DEFAULT_REPLY else reply in
  Ok {| category := category; confidence := conf;
        suggested_reply := reply; intent := intent |}.

(** [getattr(resp, "text", None)]: only an [AttributeError] gives the
    default. *)
Definition getattr_text (resp : response) : result (option str) :=
  match resp_text resp with
  | Ok s => Ok (Some s)
  | Raise (Exc AttributeError _) => Ok None
  | Raise e => Raise e
  end.

Definition classify_with_gemini (email_text : str) : result classification :=
  resp <- generate_content env email_text ;;
  output_text <- getattr_text resp ;;
  output_text <-
    (if option_truthy output_text
     then Ok (match output_text with Some s => s | None => [] end)
     else try_except (resp_first_part_text resp)
                     (fun _ => Raise (Exc RuntimeError NO_RESPONSE))) ;;
  data <- parse_json_strict output_text ;;
  classification_of data.

(** *** The request handlers *)

(** [JSONResponse(content)]: the body is
    [json.dumps(content, allow_nan=False, ...).encode("utf-8")].
    [json.dumps] raises [ValueError] on a [float] that is NaN or infinite;
    the other values of the handlers' dictionaries are texts and an [int],
    which it renders, and the body is then encoded. *)
Definition JSONResponse {A : Type} (floats : A -> list float) (texts : A -> list str)
           (content : A) : result A :=
  if forallb is_finite (floats content)
  then _ <- encode_body env (texts content) ;; Ok content
  else Raise (Exc ValueError OUT_OF_RANGE).

Definition analyze (text : option str) (file : option upload_file)
  : result classification * list event :=
  if negb (option_truthy text) && match file with None => true | Some _ => false end
  then (Raise (HTTPException 400 SEND_SOMETHING), [])
  else
    let '(raw, reads) :=
      match file with
      | Some f =>
          let name := match filename f with
                      | Some ((_ :: _) as n) => n
                      | _ => []
                      end in
          let data := file_bytes f in
          (if negb (supported_name name)
           then Raise (HTTPException 415 UNSUPPORTED)
           else read_file_bytes_to_text name data,
           [FileRead (filename f)])
      | None => (Ok (match text with Some t => t | None => [] end), [])
      end in
    match raw with
    | Raise e => (Raise e, reads)
    | Ok raw =>
        match clean_email_text raw with
        | Raise e => (Raise e, reads)
        | Ok content =>
            if is_empty content
            then (Raise (HTTPException 400 EMPTY_CONTENT), reads)
            else (result <- classify_with_gemini content ;;
                  JSONResponse classification_floats classification_texts result,
                  reads ++ [ModelCall content])
        end
    end.

(** The [try] block that reads the [texts] field. *)
Definition parse_texts (texts : str) : result (list json) :=
  try_except
    (arr <- json_loads env texts ;;
     match arr with
     | JArr elems => Ok elems
     | _ => Raise (Exc ValueError NOT_A_LIST)
     end)
    (fun e => Raise (HTTPException 400 (BAD_TEXTS ++ exn_str e))).

(** The loop over [enumerate(arr)]; it is in no [try] block, so that an
    exception of [clean_email_text] ends it. *)
Definition text_items (arr : list json) : result (list batch_item) :=
  for_each
    (fun '(i, t) =>
       match t with
       | JStr s =>
           if is_empty (strip s) then Ok []
           else
             content <- clean_email_text s ;;
             Ok [{| item_id := lit "text-" ++ decimal i; item_content := content |}]
       | _ => Ok []
       end)
    (enumerate arr).

(** One round of the loop over [enumerate(files)]: the item appended, if
    any, and the reads made.  The round is a [try] block whose handler goes
    on with the next upload. *)
Definition file_item (i : nat) (f : upload_file) : list batch_item * list event :=
  let name := match filename f with
              | Some ((_ :: _) as n) => n
              | _ => lit "file-" ++ decimal i
              end in
  if negb (supported_name name) then ([], [])
  else
    let data := file_bytes f in
    let reads := [FileRead (filename f)] in
    match data with
    | [] => ([], reads)
    | _ =>
        match read_file_bytes_to_text name data with
        | Raise _ => ([], reads)
        | Ok content =>
            if is_empty content then ([], reads)
            else
              match clean_email_text content with
              | Raise _ => ([], reads)
              | Ok cleaned_content =>
                  if is_empty cleaned_content then ([], reads)
                  else ([{| item_id := name; item_content := cleaned_content |}],
                        reads)
              end
        end
    end.

Definition file_items (files : list upload_file) : list batch_item * list event :=
  fold_left
    (fun acc '(i, f) =>
       let '(items, reads) := file_item i f in
       (fst acc ++ items, snd acc ++ reads))
    (enumerate files) ([], []).

(** One round of the loop over [items]. *)
Definition classify_item (item : batch_item) : batch_result :=
  match classify_with_gemini (item_content item) with
  | Ok result => {| result_id := item_id item; result_body := result |}
  | Raise e => degraded (item_id item) e
  end.

Definition analyze_batch (texts : option str) (files : option (list upload_file))
  : result batch_response * list event :=
  match (if option_truthy texts
         then parse_texts (match texts with Some t => t | None => [] end)
         else Ok []) with
  | Raise e => (Raise e, [])
  | Ok arr =>
      match text_items arr with
      | Raise e => (Raise e, [])
      | Ok from_texts =>
          let '(from_files, reads) :=
            match files with
            | Some fs => file_items fs
            | None => ([], [])
            end in
          let items := from_texts ++ from_files in
          match items with
          | [] => (Raise (HTTPException 400 NO_ITEMS), reads)
          | _ =>
              let results := map classify_item items in
              (JSONResponse batch_floats batch_texts
                            {| count := length results; results := results |},
               reads ++ map (fun item => ModelCall (item_content item)) items)
          end
      end
  end.

End Program.

(** * Specification vocabulary and example data *)

(** *** Libraries for examples *)

Definition unavailable {A : Type} : result A := Raise (Exc LibraryError "unavailable").

(** A library for examples whose uploads are ASCII text: markup is left
    as it is, both PDF readers fail, bytes decode to the same characters
    (on ASCII, UTF-8 and Latin-1 agree), [json.loads] knows the texts of
    [table] and rejects every other, [float] rejects every string, the
    model is [model], and every body is encoded. *)
Definition scripted (table : list (str * json)) (model : str -> result response) : library :=
  {| strip_html := fun text => Ok text;
     pypdf2_extract_text := fun _ => unavailable;
     pdfminer_extract_text := fun _ => unavailable;
     decode_utf8_ignore := fun data => Ok (decode_latin1 data);
     json_loads := fun s =>
       match lookup s table with
       | Some v => Ok v
       | None => Raise (Exc ValueError "Expecting value")
       end;
     float_of_str := fun _ => Raise (Exc ValueError "could not convert string to float");
     generate_content := model;
     encode_body := fun _ => Ok tt |}.

(** No model and no JSON text. *)
Definition offline : library := scripted [] (fun _ => unavailable).

(** [s.encode("ascii")] *)
Definition encode (s : str) : bytes := map byte_of_ascii s.

(** *** Shapes of strings *)

Definition no_linebreak (c : ascii) : Prop := is_linebreak c = false.
Definition is_allowed (c : ascii) : Prop := allowed c = true.

(** No two neighbours are both white space. *)
Fixpoint single_spaced (s : str) : Prop :=
  match s with
  | [] => True
  | c :: s' =>
      match s' with
      | [] => True
      | c' :: _ => is_space c && is_space c' = false
      end /\ single_spaced s'
  end.

(** The pattern [m] matches nowhere in [s]. *)
Fixpoint unmatched (m : str -> option nat) (s : str) : Prop :=
  match s with
  | [] => True
  | _ :: s' => m s = None /\ unmatched m s'
  end.

Definition head_nonspace (s : str) : Prop :=
  match s with
  | [] => True
  | c :: _ => is_space c = false
  end.

(** *** The steps of the cleaner behind the markup step *)

(** What [clean_email_text] makes of [raw] once the markup is out of the
    way: the kept lines, joined, without addresses, noise and runs of white
    space, and the empty text when fewer than 10 characters are left. *)
Definition clean_plain (raw : str) : str :=
  match filter keep_line (map strip (splitlines raw)) with
  | [] => []
  | lines =>
      let text := join " " lines in
      let text := re_sub url_match " " text in
      let text := re_sub noise_match " " text in
      let text := re_sub spaces_match " " text in
      let text := strip text in
      if length text <? 10 then [] else text
  end.

(** *** The shape of a cleaned text *)

(** What the cleaner leaves of a text: allowed characters only, on one
    line, single-spaced and stripped. *)
Record cleaned (y : str) : Prop := {
  cleaned_allowed : Forall is_allowed y;
  cleaned_one_line : Forall no_linebreak y;
  cleaned_single_spaced : single_spaced y;
  cleaned_stripped : strip y = y
}.

(** *** The text cleaner: idempotence *)

(** A line of a forwarded message: the bullet hides the header name from
    the first pass, and cleaning removes the bullet. *)
Definition forwarded_subject : str := "* Subject: status do chamado 12345".

Definition status_question : str := "Poderiam informar o status do chamado 12345?".

(** The same question with blanks and a sign the cleaner removes. *)
Definition noisy_question : str :=
  "  Poderiam   informar o status do chamado 12345? <3 ".

(** *** The brace-delimited region of the model's answer *)

(** Some ["{"] of [text] is followed, somewhere, by a ["}"]: the last ["}"]
    comes after the first ["{"]. *)
Definition has_braces (text : str) : Prop :=
  exists pre mid post, text = pre ++ "{"%char :: mid ++ "}"%char :: post.

(** [region] is the part of [text] from its first ["{"] to its last ["}"],
    both included. *)
Definition region_of (text region : str) : Prop :=
  exists pre mid post,
    text = pre ++ "{"%char :: mid ++ "}"%char :: post
    /\ ~ In "{"%char pre /\ ~ In "}"%char post
    /\ region = "{"%char :: mid ++ ["}"%char].

(** The answer of a model that wraps its JSON in prose. *)
Definition wrapped_answer : str := "Claro! {category} Espero ter ajudado.".

(** *** The normalization of the model's payload *)

(** [v] can be looked up in a set. *)
Definition hashable (v : json) : bool :=
  match v with
  | JArr _ | JObj _ => false
  | _ => true
  end.

(** [v] is a string, or [v or ""] is [""]. *)
Definition text_or_falsy (v : json) : bool :=
  match v with
  | JStr _ => true
  | _ => negb (truthy v)
  end.

(** The four fields [classification_of] reads, each with the default of
    its [data.get]. *)
Definition category_field (items : list (str * json)) : json :=
  or_default (lookup "category" items) (JStr IMPRODUTIVO).

Definition intent_field (items : list (str * json)) : json :=
  or_default (lookup "intent" items) JNull.

Definition confidence_field (items : list (str * json)) : json :=
  or_default (lookup "confidence" items) (JFloat float_0_7).

Definition reply_field (items : list (str * json)) : json :=
  or_default (lookup "suggested_reply" items) JNull.

(** The payloads [classification_of] accepts: a category that is no list
    and no object, an intent and a reply that are missing, falsy or a
    string, and a confidence that is missing or that [float] converts. *)
Definition accepted_payload (env : library) (items : list (str * json)) : Prop :=
  hashable (category_field items) = true
  /\ text_or_falsy (intent_field items) = true
  /\ (exists f, py_float env (confidence_field items) = Ok f)
  /\ text_or_falsy (reply_field items) = true.

(** A classification of the documented form. *)
Definition valid_classification (r : classification) : Prop :=
  (category r = PRODUTIVO \/ category r = IMPRODUTIVO)
  /\ In (intent r) intents
  /\ suggested_reply r <> [].

(** A payload whose confidence is [null]. *)
Definition null_confidence : json := JObj [(lit "confidence", JNull)].

(** A payload whose confidence is the number 5. *)
Definition confidence_five : json := JObj [(lit "confidence", JInt 5)].

(** A payload of the declared schema. *)
Definition thanks_payload : list (str * json) :=
  [(lit "category", JStr IMPRODUTIVO); (lit "intent", JStr "AGRADECIMENTOS");
   (lit "confidence", JInt 1); (lit "suggested_reply", JStr " De nada! ")].

(** ["{"confidence": 5}"], the text of [confidence_five]. *)
Definition five_text : str :=
  lit "{" ++ chr 34 ++ lit "confidence" ++ chr 34 ++ lit ": 5}".

(** A model that always answers [five_text]. *)
Definition five_model : library :=
  scripted [(five_text, confidence_five)]
           (fun _ => Ok {| resp_text := Ok five_text;
                           resp_first_part_text := unavailable |}).

(** What [classification_of] makes of [thanks_payload]. *)
Definition thanks_result : classification :=
  {| category := IMPRODUTIVO;
     confidence := float_one;
     suggested_reply := "De nada!";
     intent := "agradecimento" |}.

(** *** The document decoder *)

(** The number of characters of [s] that are not white space. *)
Definition non_whitespace_length (s : str) : nat := length (filter nonspace s).

(** An ordered chain of strategies, each with its acceptance test: the
    first accepted text, or the empty text. *)
Fixpoint first_accepted (strategies : list (result str * (str -> bool))) : str :=
  match strategies with
  | [] => []
  | (r, accept) :: rest =>
      match attempt r accept with
      | Returned content => content
      | NextStrategy => first_accepted rest
      end
  end.

Definition pdf_strategies (env : library) (data : bytes)
  : list (result str * (str -> bool)) :=
  [(pypdf2_extract_text env data, has_content);
   (pdfminer_extract_text env data, has_content);
   (decode_utf8_ignore env data, long_enough);
   (Ok (decode_latin1 data), long_enough)].

(** The Latin-1 step and the end of the chain. *)
Definition latin1_or_empty (data : bytes) : str :=
  if 100 <? length (strip (decode_latin1 data)) then decode_latin1 data else [].

(** Two letters with a hundred blanks between them. *)
Definition padded : str := lit "a" ++ repeat " "%char 100 ++ lit "b".

(** A library of which every call raises. *)
Definition broken : library :=
  {| strip_html := fun _ => unavailable;
     pypdf2_extract_text := fun _ => unavailable;
     pdfminer_extract_text := fun _ => unavailable;
     decode_utf8_ignore := fun _ => unavailable;
     json_loads := fun _ => unavailable;
     float_of_str := fun _ => unavailable;
     generate_content := fun _ => unavailable;
     encode_body := fun _ => unavailable |}.

(** *** The request handlers *)

(** The texts phase of [analyze_batch]. *)
Definition texts_phase (env : library) (texts : option str) : result (list json) :=
  if option_truthy texts
  then parse_texts env (match texts with Some t => t | None => [] end)
  else Ok [].

(** The files phase of [analyze_batch]: [if files: ...]. *)
Definition file_phase (env : library) (files : option (list upload_file))
  : list batch_item * list event :=
  match files with
  | Some fs => file_items env fs
  | None => ([], [])
  end.

(** The items of a batch in discovery order, when the loop over the texts
    ends: those of the texts, then those of the files. *)
Definition discovered_items (env : library) (arr : list json)
           (files : option (list upload_file)) : result (list batch_item) :=
  from_texts <- text_items env arr ;;
  Ok (from_texts ++ fst (file_phase env files)).

(** The reads of the files phase of [analyze_batch]. *)
Definition file_reads (env : library) (files : option (list upload_file)) : list event :=
  snd (file_phase env files).

(** The results of the loop over the items of a batch. *)
Definition batch_results (env : library) (items : list batch_item) : list batch_result :=
  map (classify_item env) items.

(** The response of a batch whose items are [items], before it is
    rendered. *)
Definition response_of (env : library) (items : list batch_item) : batch_response :=
  {| count := length items; results := batch_results env items |}.

(** The calls to the model a batch makes for [items]. *)
Definition model_calls (items : list batch_item) : list event :=
  map (fun item => ModelCall (item_content item)) items.

(** [s] between double quotes. *)
Definition quoted (s : str) : str := chr 34 ++ s ++ chr 34.

Definition support_request : str :=
  "Estou com erro no sistema e preciso de suporte urgente.".

Definition greeting : str := "Feliz Natal para toda a equipe!".

(** The [texts] field of a batch of three e-mails. *)
Definition three_texts : str :=
  lit "[" ++ quoted status_question ++ lit ", " ++ quoted support_request
  ++ lit ", " ++ quoted greeting ++ lit "]".

(** A model that is down for the second e-mail and answers [{}] to the
    others. *)
Definition flaky : library :=
  scripted
    [(three_texts, JArr [JStr status_question; JStr support_request; JStr greeting]);
     (lit "{}", JObj [])]
    (fun content =>
       if str_eqb content support_request then unavailable
       else Ok {| resp_text := Ok (lit "{}"); resp_first_part_text := unavailable |}).

(** An uploaded note. *)
Definition note_file : upload_file :=
  {| filename := Some (lit "nota.txt"); file_bytes := encode status_question |}.

(** The [texts] field [["oi"]]. *)
Definition short_texts : str := lit "[" ++ quoted (lit "oi") ++ lit "]".

(** A library that knows [short_texts]. *)
Definition short_batch : library :=
  scripted [(short_texts, JArr [JStr (lit "oi")])] (fun _ => unavailable).

(** *** Outcomes of the classification client and of the handlers *)

(** What [classification_of] makes of [confidence_five]. *)
Definition five_result : classification :=
  {| category := IMPRODUTIVO;
     confidence := S754_finite false 5629499534213120 (-50);
     suggested_reply := DEFAULT_REPLY;
     intent := OUTROS |}.

Definition is_model_call (e : event) : bool :=
  match e with
  | ModelCall _ => true
  | FileRead _ => false
  end.

(** The name the files loop gives to the upload at index [i]:
    [f.filename or f"file-{i}"]. *)
Definition upload_name (i : nat) (f : upload_file) : str :=
  match filename f with
  | Some ((_ :: _) as n) => n
  | _ => lit "file-" ++ decimal i
  end.

(** The upload has a name, and the name ends in [.pdf] or [.txt]. *)
Definition named_and_supported (f : upload_file) : bool :=
  match filename f with
  | Some ((_ :: _) as n) => supported_name n
  | _ => false
  end.

(** An answer with an empty [text] and no readable candidate. *)
Definition silent_response : response :=
  {| resp_text := Ok []; resp_first_part_text := unavailable |}.

(** A model that always gives [silent_response]. *)
Definition silent_model : library := scripted [] (fun _ => Ok silent_response).

(** A response whose [text] attribute is missing or falsy. *)
Definition no_text (resp : response) : Prop :=
  resp_text resp = Ok [] \/ exists msg, resp_text resp = Raise (Exc AttributeError msg).

(** A decimal digit. *)
Definition is_digit (c : ascii) : bool := in_range 48 57 c.

(** The item the files loop makes of [note_file]. *)
Definition note_item : batch_item :=
  {| item_id := lit "nota.txt"; item_content := status_question |}.

(** One round of the loop over [enumerate(arr)]. *)
Definition text_item (env : library) (p : nat * json) : result (list batch_item) :=
  match snd p with
  | JStr s =>
      if is_empty (strip s) then Ok []
      else
        content <- clean_email_text env s ;;
        Ok [{| item_id := lit "text-" ++ decimal (fst p); item_content := content |}]
  | _ => Ok []
  end.

(** An upload whose name has no supported extension. *)
Definition spreadsheet : upload_file :=
  {| filename := Some (lit "planilha.xlsx"); file_bytes := encode status_question |}.

(** *** Shapes of lines and of file names *)

(** Only white space. *)
Definition blank (s : str) : Prop := Forall (fun c => is_space c = true) s.

(** What [HEADER_RE] describes on a Latin-1 line: one of the header names
    in any letter case, then any white space, then a colon. *)
Definition header_line (line : str) : Prop :=
  exists name w rest,
    line = name ++ w ++ ":"%char :: rest /\ In (lower name) header_names /\ blank w.

(** [name] ends in [ext], up to the case of the letters. *)
Definition has_extension (ext name : str) : Prop :=
  exists stem e, name = stem ++ e /\ lower e = ext.

(** The characters of the lines, with one separator for each line. *)
Fixpoint lines_weight (ls : list str) : nat :=
  match ls with
  | [] => 0
  | l :: rest => S (length l) + lines_weight rest
  end.

(** The text the cleaner works on: [raw] after the markup step, which
    calls the markup stripper only for a text that holds [<html], [<div] or
    [<br]. *)
Definition without_markup (env : library) (raw : str) : result str :=
  if looks_like_html raw then strip_html env raw else Ok raw.

(** The [texts] field of a batch of one e-mail. *)
Definition one_text : str := lit "[" ++ quoted status_question ++ lit "]".

(** A library that knows [one_text], with a model that answers [{}]. *)
Definition one_batch : library :=
  scripted [(one_text, JArr [JStr status_question]); (lit "{}", JObj [])]
           (fun _ => Ok {| resp_text := Ok (lit "{}");
                           resp_first_part_text := unavailable |}).

(** *** The handlers and the response *)

(** [file.filename or ""] *)
Definition name_or_empty (f : upload_file) : str :=
  match filename f with
  | Some n => n
  | None => []
  end.

(** The confidence of a result can be rendered. *)
Definition renderable (r : batch_result) : bool := is_finite (confidence (result_body r)).

(** What [classification_of] makes of the empty object [{}]. *)
Definition default_result : classification :=
  {| category := IMPRODUTIVO;
     confidence := float_0_7;
     suggested_reply := DEFAULT_REPLY;
     intent := OUTROS |}.

(** ["{"confidence": 1e400}"]: valid JSON whose number is beyond the range
    of a double, so that [json.loads] reads it as infinity. *)
Definition huge_text : str :=
  lit "{" ++ chr 34 ++ lit "confidence" ++ chr 34 ++ lit ": 1e400}".

Definition huge_confidence : json :=
  JObj [(lit "confidence", JFloat (S754_infinity false))].

(** What [classification_of] makes of [huge_confidence]. *)
Definition huge_result : classification :=
  {| category := IMPRODUTIVO;
     confidence := S754_infinity false;
     suggested_reply := DEFAULT_REPLY;
     intent := OUTROS |}.

(** A model that is down for the second e-mail of [three_texts] and
    answers [huge_text] to the others. *)
Definition overflowing : library :=
  scripted
    [(three_texts, JArr [JStr status_question; JStr support_request; JStr greeting]);
     (huge_text, huge_confidence)]
    (fun content =>
       if str_eqb content support_request then unavailable
       else Ok {| resp_text := Ok huge_text; resp_first_part_text := unavailable |}).

(** A text with markup, and a library whose markup stripper rejects it. *)
Definition marked_up : str := "<br>Poderiam informar o status do chamado 12345?".

Definition marked_up_texts : str := lit "[" ++ quoted marked_up ++ lit "]".

Definition rejecting : library :=
  {| strip_html := fun _ => Raise (Exc LibraryError "ParserRejectedMarkup");
     pypdf2_extract_text := fun _ => unavailable;
     pdfminer_extract_text := fun _ => unavailable;
     decode_utf8_ignore := fun data => Ok (decode_latin1 data);
     json_loads := fun s =>
       if str_eqb s marked_up_texts then Ok (JArr [JStr marked_up])
       else Raise (Exc ValueError "Expecting value");
     float_of_str := fun _ => unavailable;
     generate_content := fun _ => unavailable;
     encode_body := fun _ => Ok tt |}.

(** * Properties *)

(** ** Facts about strings *)

Lemma ascii_eqb_eq (a b : ascii) : ascii_eqb a b = true <-> a = b.
Proof. unfold ascii_eqb. apply Ascii.eqb_eq. Qed.

Lemma startswith_cons_In (c : ascii) (p s : str) :
  startswith (c :: p) s = true -> In c s.
Proof.
  destruct s as [|d s]; simpl; [discriminate|].
  intros H. apply andb_true_iff in H as [H _].
  apply ascii_eqb_eq in H. now left.
Qed.

Lemma contains_cons_In (c : ascii) (p s : str) :
  contains (c :: p) s = true -> In c s.
Proof.
  induction s as [|d s IH].
  - simpl. discriminate.
  - intros H. change (startswith (c :: p) (d :: s) || contains (c :: p) s = true) in H.
    apply orb_true_iff in H as [H|H].
    + now apply startswith_cons_In in H.
    + right. auto.
Qed.

Lemma startswith_app_In (p q s : str) (c : ascii) :
  startswith (p ++ c :: q) s = true -> In c s.
Proof.
  revert s. induction p as [|x p IH]; intros s.
  - apply startswith_cons_In.
  - destruct s as [|d s]; simpl; [discriminate|].
    intros H. apply andb_true_iff in H as [_ H]. right. eauto.
Qed.

Lemma lower_char_lt (c : ascii) : lower_char c = "<"%char -> c = "<"%char.
Proof.
  destruct c as [[|] [|] [|] [|] [|] [|] [|] [|]]; vm_compute; congruence.
Qed.

(** *** [strip] *)

Lemma lstrip_head (s : str) : head_nonspace (lstrip s).
Proof.
  induction s as [|c s IH]; simpl; [exact I|].
  destruct (is_space c) eqn:E; [assumption|]. simpl. exact E.
Qed.

Lemma lstrip_fixed (s : str) : head_nonspace s -> lstrip s = s.
Proof. destruct s as [|c s]; simpl; [reflexivity|]. now intros ->. Qed.

Lemma rstrip_cons_nonspace (c : ascii) (s : str) :
  is_space c = false -> rstrip (c :: s) = c :: rstrip s.
Proof. intros E. simpl. rewrite E. now destruct (rstrip s). Qed.

Lemma rstrip_idem (s : str) : rstrip (rstrip s) = rstrip s.
Proof.
  induction s as [|c s IH]; simpl; [reflexivity|].
  destruct (rstrip s) as [|d r] eqn:E.
  - destruct (is_space c) eqn:Ec; simpl; [reflexivity|]. now rewrite Ec.
  - change (rstrip (c :: d :: r) = c :: d :: r).
    simpl. simpl in IH. destruct (match rstrip r with [] => _ | _ => _ end).
    + discriminate.
    + now rewrite IH.
Qed.

Lemma lstrip_rstrip (s : str) : lstrip (rstrip s) = rstrip (lstrip s).
Proof.
  induction s as [|c s IH]; [reflexivity|].
  destruct (is_space c) eqn:Ec.
  - simpl. rewrite Ec. destruct (rstrip s) as [|d r] eqn:E.
    + rewrite <- IH. reflexivity.
    + rewrite <- IH. simpl. now rewrite Ec.
  - rewrite rstrip_cons_nonspace by assumption.
    simpl. rewrite Ec. now rewrite rstrip_cons_nonspace.
Qed.

Lemma strip_idem (s : str) : strip (strip s) = strip s.
Proof.
  unfold strip. rewrite lstrip_rstrip.
  rewrite (lstrip_fixed _ (lstrip_head s)). apply rstrip_idem.
Qed.

Lemma Forall_lstrip (P : ascii -> Prop) (s : str) : Forall P s -> Forall P (lstrip s).
Proof.
  induction 1 as [|c s Hc Hs IH]; simpl; [constructor|].
  destruct (is_space c); [assumption|now constructor].
Qed.

Lemma Forall_rstrip (P : ascii -> Prop) (s : str) : Forall P s -> Forall P (rstrip s).
Proof.
  induction 1 as [|c s Hc Hs IH]; simpl; [constructor|].
  destruct (rstrip s) as [|d r].
  - destruct (is_space c); [constructor|]. now constructor.
  - now constructor.
Qed.

Lemma Forall_strip (P : ascii -> Prop) (s : str) : Forall P s -> Forall P (strip s).
Proof. intros H. now apply Forall_rstrip, Forall_lstrip. Qed.

Lemma single_spaced_tail (c : ascii) (s : str) :
  single_spaced (c :: s) -> single_spaced s.
Proof. simpl. tauto. Qed.

Lemma single_spaced_lstrip (s : str) : single_spaced s -> single_spaced (lstrip s).
Proof.
  induction s as [|c s IH]; [trivial|].
  intros H. simpl. destruct (is_space c); [|assumption].
  apply IH. eapply single_spaced_tail; eassumption.
Qed.

Lemma single_spaced_rstrip (s : str) : single_spaced s -> single_spaced (rstrip s).
Proof.
  induction s as [|c s IH]; [trivial|].
  intros [H1 H2]. specialize (IH H2). simpl.
  destruct (rstrip s) as [|d r] eqn:E.
  - destruct (is_space c); simpl; auto.
  - split; [|assumption].
    destruct s as [|d' s']; [discriminate|].
    assert (d = d') as ->; [|exact H1].
    simpl in E. destruct (rstrip s'); [destruct (is_space d')|]; congruence.
Qed.

Lemma single_spaced_strip (s : str) : single_spaced s -> single_spaced (strip s).
Proof. intros H. now apply single_spaced_rstrip, single_spaced_lstrip. Qed.

(** *** [re.sub] *)

Lemma Forall_skipn_str (P : ascii -> Prop) (n : nat) (s : str) :
  Forall P s -> Forall P (skipn n s).
Proof.
  revert s. induction n as [|n IH]; intros s H; [exact H|].
  destruct H; simpl; [constructor|auto].
Qed.

Lemma re_sub_fuel_unmatched (m : str -> option nat) (repl : str) (fuel : nat) (s : str) :
  unmatched m s -> re_sub_fuel m repl fuel s = s.
Proof.
  revert s. induction fuel as [|fuel IH]; intros s H; [reflexivity|].
  destruct s as [|c s]; [reflexivity|].
  destruct H as [H1 H2]. simpl re_sub_fuel. rewrite H1. now rewrite IH.
Qed.

Lemma re_sub_fuel_Forall (P : ascii -> Prop) (m : str -> option nat)
      (repl : str) (fuel : nat) (s : str) :
  Forall P repl -> Forall P s -> Forall P (re_sub_fuel m repl fuel s).
Proof.
  intros Hr. revert s. induction fuel as [|fuel IH]; intros s H; [exact H|].
  destruct s as [|c s]; [constructor|].
  simpl re_sub_fuel. inversion H as [|? ? Hc Hs]; subst.
  destruct (m (c :: s)) as [k|].
  - apply Forall_app. split; [assumption|].
    apply IH. now apply Forall_skipn_str.
  - constructor; auto.
Qed.

Lemma noise_sub_allowed (fuel : nat) (s : str) :
  length s <= fuel -> Forall is_allowed (re_sub_fuel noise_match " " fuel s).
Proof.
  revert s. induction fuel as [|fuel IH]; intros s H.
  - destruct s; [constructor|simpl in H; lia].
  - destruct s as [|c s]; [constructor|].
    simpl in H. simpl re_sub_fuel.
    destruct (allowed c) eqn:E.
    + constructor; [exact E|]. apply IH. lia.
    + constructor; [reflexivity|]. apply IH. simpl. lia.
Qed.

Lemma skip_spaces_head (s : str) :
  head_nonspace (skipn (length (takewhile is_space s)) s).
Proof.
  induction s as [|c s IH]; [exact I|].
  simpl. destruct (is_space c) eqn:E; simpl; assumption.
Qed.

Lemma length_skipn_le (n : nat) (s : str) : length (skipn n s) <= length s.
Proof. rewrite length_skipn. lia. Qed.

Lemma head_nonspace_unmatched (s : str) :
  head_nonspace s -> spaces_match s = None.
Proof.
  destruct s as [|c s]; [reflexivity|]. simpl. intros E.
  unfold spaces_match. simpl. now rewrite E.
Qed.

Lemma spaces_sub_head (fuel : nat) (s : str) :
  head_nonspace s -> head_nonspace (re_sub_fuel spaces_match " " fuel s).
Proof.
  intros H. destruct fuel as [|fuel]; [exact H|].
  destruct s as [|c s]; [exact I|].
  simpl re_sub_fuel. rewrite (head_nonspace_unmatched _ H). exact H.
Qed.

Lemma head_nonspace_single (c : ascii) (s : str) :
  head_nonspace s -> single_spaced s -> single_spaced (c :: s).
Proof.
  intros H1 H2. split; [|assumption].
  destruct s as [|d s]; [exact I|]. simpl in H1. rewrite H1. apply andb_false_r.
Qed.

Lemma spaces_sub_single (fuel : nat) (s : str) :
  length s <= fuel -> single_spaced (re_sub_fuel spaces_match " " fuel s).
Proof.
  revert s. induction fuel as [|fuel IH]; intros s H.
  - destruct s; [exact I|simpl in H; lia].
  - destruct s as [|c s]; [exact I|].
    simpl in H. simpl re_sub_fuel.
    destruct (spaces_match (c :: s)) as [k|] eqn:E.
    + unfold spaces_match in E.
      destruct (2 <=? length (takewhile is_space (c :: s))) eqn:E2; [|discriminate].
      injection E as <-. apply Nat.leb_le in E2.
      simpl in E2 |- *. destruct (is_space c) eqn:Ec; [|simpl in E2; lia].
      replace (length (c :: takewhile is_space s) - 1)
        with (length (takewhile is_space s)) by (simpl; lia).
      split.
      * pose proof (spaces_sub_head fuel _ (skip_spaces_head s)) as Hh.
        destruct (re_sub_fuel _ _ _ _) as [|d r]; [exact I|]. exact Hh.
      * apply IH. pose proof (length_skipn_le (length (takewhile is_space s)) s). lia.
    + assert (Hs : single_spaced (re_sub_fuel spaces_match " " fuel s)) by (apply IH; lia).
      destruct (is_space c) eqn:Ec.
      * apply head_nonspace_single; [|assumption].
        apply spaces_sub_head.
        unfold spaces_match in E. simpl in E. rewrite Ec in E. simpl in E.
        destruct s as [|d s]; [exact I|]. simpl in E |- *.
        destruct (is_space d); [discriminate|reflexivity].
      * split; [|assumption].
        destruct (re_sub_fuel _ _ _ _); [exact I|]. now rewrite Ec.
Qed.

Lemma single_spaced_unmatched (s : str) :
  single_spaced s -> unmatched spaces_match s.
Proof.
  induction s as [|c s IH]; [trivial|].
  intros [H1 H2]. split; [|auto].
  unfold spaces_match. simpl.
  destruct (is_space c) eqn:Ec; [|reflexivity].
  destruct s as [|d s]; [reflexivity|].
  simpl in H1. simpl. now rewrite H1.
Qed.

Lemma allowed_unmatched_noise (s : str) :
  Forall is_allowed s -> unmatched noise_match s.
Proof.
  induction 1 as [|c s Hc Hs IH]; [exact I|].
  split; [|assumption]. simpl. now rewrite Hc.
Qed.

Lemma allowed_no_char (c : ascii) (s : str) :
  allowed c = false -> Forall is_allowed s -> ~ In c s.
Proof.
  intros Hc H Hin. rewrite Forall_forall in H.
  specialize (H _ Hin). unfold is_allowed in H. congruence.
Qed.

Lemma url_match_slash (s : str) : ~ In "/"%char s -> url_match s = None.
Proof.
  intros H. unfold url_match.
  destruct (startswith "http://" s) eqn:E1.
  - exfalso. apply H. exact (startswith_app_In (lit "http:") (lit "/") s _ E1).
  - destruct (startswith "https://" s) eqn:E2; [|reflexivity].
    exfalso. apply H. exact (startswith_app_In (lit "https:") (lit "/") s _ E2).
Qed.

Lemma allowed_unmatched_url (s : str) :
  Forall is_allowed s -> unmatched url_match s.
Proof.
  induction 1 as [|c s Hc Hs IH]; [exact I|].
  split; [|assumption].
  apply url_match_slash. apply allowed_no_char; [reflexivity|now constructor].
Qed.

(** *** [splitlines] and [join] *)

Lemma splitlines_from_one_line (s cur : str) :
  Forall no_linebreak s -> cur ++ s <> [] ->
  splitlines_from cur s = [rev cur ++ s].
Proof.
  revert cur. induction s as [|c s IH]; intros cur H Hne.
  - rewrite app_nil_r in *. simpl. now destruct cur.
  - inversion H as [|? ? Hc Hs]; subst. simpl. rewrite Hc.
    rewrite IH; [|assumption|discriminate].
    simpl. now rewrite <- app_assoc.
Qed.

Lemma splitlines_one_line (s : str) :
  Forall no_linebreak s -> s <> [] -> splitlines s = [s].
Proof. intros H Hne. now apply (splitlines_from_one_line s []). Qed.

Lemma splitlines_from_no_linebreak (n : nat) (s cur : str) :
  length s <= n -> Forall no_linebreak cur ->
  Forall (Forall no_linebreak) (splitlines_from cur s).
Proof.
  revert s cur. induction n as [|n IH]; intros s cur Hn Hcur.
  - destruct s; [|simpl in Hn; lia]. simpl.
    destruct cur; [constructor|]. repeat constructor. now apply Forall_rev.
  - destruct s as [|c s]; simpl.
    + destruct cur; [constructor|]. repeat constructor. now apply Forall_rev.
    + simpl in Hn. destruct (is_linebreak c) eqn:Ec.
      * assert (Hrev : Forall no_linebreak (rev cur)) by now apply Forall_rev.
        destruct s as [|c' s'].
        -- constructor; [assumption|]. apply IH; [simpl; lia|constructor].
        -- destruct (ascii_eqb c CR && ascii_eqb c' LF);
             (constructor; [assumption|]); apply IH; simpl in *; try lia; constructor.
      * apply IH; [lia|]. now constructor.
Qed.

Lemma splitlines_no_linebreak (s : str) :
  Forall (Forall no_linebreak) (splitlines s).
Proof. apply (splitlines_from_no_linebreak (length s)); [lia|constructor]. Qed.

Lemma Forall_join (P : ascii -> Prop) (sep : str) (parts : list str) :
  Forall P sep -> Forall (Forall P) parts -> Forall P (join sep parts).
Proof.
  intros Hsep. induction 1 as [|p rest Hp Hrest IH]; [constructor|].
  simpl. destruct rest as [|q rest]; [assumption|].
  apply Forall_app. split; [assumption|].
  apply Forall_app. split; assumption.
Qed.

Lemma Forall_kept_lines (P : ascii -> Prop) (ls : list str) :
  Forall (Forall P) ls -> Forall (Forall P) (filter keep_line (map strip ls)).
Proof.
  intros H. apply Forall_forall. intros l Hl.
  apply filter_In in Hl as [Hl _]. apply in_map_iff in Hl as [l' [<- Hl']].
  apply Forall_strip. rewrite Forall_forall in H. auto.
Qed.

(** ** The shape of a cleaned text *)

Lemma clean_plain_shape (x : str) :
  clean_plain x = [] \/ (cleaned (clean_plain x) /\ 10 <= length (clean_plain x)).
Proof.
  unfold clean_plain.
  assert (Hl : Forall (Forall no_linebreak) (filter keep_line (map strip (splitlines x))))
    by apply Forall_kept_lines, splitlines_no_linebreak.
  destruct (filter keep_line (map strip (splitlines x))) as [|l ls] eqn:El; [now left|].
  set (text := join " " (l :: ls)) in *.
  assert (Hsp : Forall no_linebreak (lit " ")) by (repeat constructor).
  assert (Hsa : Forall is_allowed (lit " ")) by (repeat constructor).
  assert (Ht : Forall no_linebreak text) by now apply Forall_join.
  clearbody text. clear El Hl.
  destruct (length _ <? 10) eqn:E10; [now left|]. right.
  apply Nat.ltb_ge in E10. split; [|exact E10]. unfold re_sub.
  split.
  - apply Forall_strip, re_sub_fuel_Forall; [assumption|].
    apply noise_sub_allowed. lia.
  - apply Forall_strip. repeat apply re_sub_fuel_Forall; assumption.
  - apply single_spaced_strip, spaces_sub_single. lia.
  - apply strip_idem.
Qed.

Lemma cleaned_not_html (y : str) : cleaned y -> looks_like_html y = false.
Proof.
  intros [Ha _ _ _].
  assert (H : ~ In "<"%char (lower y)).
  { intros Hin. apply in_map_iff in Hin as [c [Hc Hin]].
    apply lower_char_lt in Hc. subst c.
    revert Hin. now apply allowed_no_char. }
  unfold looks_like_html.
  destruct (contains "<html" (lower y)) eqn:E1;
    [exfalso; apply H; exact (contains_cons_In _ _ _ E1)|].
  destruct (contains "<div" (lower y)) eqn:E2;
    [exfalso; apply H; exact (contains_cons_In _ _ _ E2)|].
  destruct (contains "<br" (lower y)) eqn:E3;
    [exfalso; apply H; exact (contains_cons_In _ _ _ E3)|].
  reflexivity.
Qed.

Lemma cleaned_kept (y : str) :
  cleaned y -> 3 <= length y -> header_match y = false -> keep_line y = true.
Proof.
  intros [Ha _ _ _] Hlen Hh. unfold keep_line.
  destruct y as [|c y]; [simpl in Hlen; lia|].
  rewrite Hh.
  destruct (startswith ">" (c :: y)) eqn:E.
  - exfalso. apply startswith_cons_In in E. revert E. now apply allowed_no_char.
  - destruct (length (c :: y) <? 3) eqn:E3; [|reflexivity].
    apply Nat.ltb_lt in E3. lia.
Qed.

(** A cleaned text that is long enough and is not itself a header line is
    left as it is by the steps behind the markup step. *)
Lemma clean_plain_fixed (y : str) :
  cleaned y -> 10 <= length y -> header_match y = false -> clean_plain y = y.
Proof.
  intros Hy Hlen Hh. unfold clean_plain.
  assert (Hne : y <> []) by (destruct y; [simpl in Hlen; lia|discriminate]).
  rewrite splitlines_one_line; [|apply (cleaned_one_line y Hy)|assumption].
  simpl map. rewrite (cleaned_stripped y Hy).
  simpl filter. rewrite cleaned_kept; [|assumption|lia|assumption].
  simpl join. unfold re_sub.
  rewrite (re_sub_fuel_unmatched _ _ _ _ (allowed_unmatched_url _ (cleaned_allowed y Hy))).
  rewrite (re_sub_fuel_unmatched _ _ _ _ (allowed_unmatched_noise _ (cleaned_allowed y Hy))).
  rewrite (re_sub_fuel_unmatched _ _ _ _ (single_spaced_unmatched _ (cleaned_single_spaced y Hy))).
  rewrite (cleaned_stripped y Hy).
  destruct (length y <? 10) eqn:E; [|reflexivity].
  apply Nat.ltb_lt in E. lia.
Qed.

(** ** The cleaner and its markup step *)

Section CleanerFacts.

Variable env : library.

(** [clean_email_text] is the markup step followed by [clean_plain]. *)
Lemma clean_email_text_plain (raw : str) :
  clean_email_text env raw = (r <- without_markup env raw ;; Ok (clean_plain r)).
Proof.
  unfold clean_email_text, without_markup.
  destruct raw as [|c raw]; [reflexivity|].
  destruct (looks_like_html (c :: raw)).
  - destruct (strip_html env (c :: raw)) as [r|e]; [|reflexivity].
    cbn [bind]. unfold clean_plain.
    destruct (filter keep_line (map strip (splitlines r))); [reflexivity|].
    now destruct (length _ <? 10).
  - cbn [bind]. unfold clean_plain.
    destruct (filter keep_line (map strip (splitlines (c :: raw)))); [reflexivity|].
    now destruct (length _ <? 10).
Qed.


Lemma clean_email_text_plain_text (raw : str) :
  looks_like_html raw = false -> clean_email_text env raw = Ok (clean_plain raw).
Proof.
  intros H. rewrite clean_email_text_plain. unfold without_markup. now rewrite H.
Qed.

Lemma clean_email_text_shape (x y : str) :
  clean_email_text env x = Ok y -> y = [] \/ (cleaned y /\ 10 <= length y).
Proof.
  rewrite clean_email_text_plain.
  destruct (without_markup env x) as [r|e]; [|discriminate].
  cbn [bind]. intros [= <-]. apply clean_plain_shape.
Qed.

(** A cleaned text that is long enough and is not itself a header line is
    a fixed point of the cleaner. *)
Lemma clean_email_text_fixed (y : str) :
  cleaned y -> 10 <= length y -> header_match y = false ->
  clean_email_text env y = Ok y.
Proof.
  intros Hy Hlen Hh.
  rewrite (clean_email_text_plain_text y (cleaned_not_html y Hy)).
  f_equal. now apply clean_plain_fixed.
Qed.

End CleanerFacts.

(** ** The text cleaner: idempotence *)

(** C1, as stated, fails: the cleaner keeps the line ["* Subject: ..."],
    whose cleaned form ["Subject: ..."] has 32 characters and is a header
    line, so that cleaning it again gives the empty text. *)
Lemma clean_email_text_not_idempotent :
  (forall env, clean_email_text env forwarded_subject
               = Ok (lit "Subject: status do chamado 12345"))
  /\ (forall env, clean_email_text env (lit "Subject: status do chamado 12345") = Ok [])
  /\ ~ (forall env x y,
          clean_email_text env x = Ok y ->
          10 <= length y ->
          clean_email_text env y = Ok y).
Proof.
  assert (H1 : forall env, clean_email_text env forwarded_subject
                           = Ok (lit "Subject: status do chamado 12345"))
    by (intros env; vm_compute; reflexivity).
  assert (H2 : forall env, clean_email_text env (lit "Subject: status do chamado 12345")
                           = Ok [])
    by (intros env; vm_compute; reflexivity).
  split; [exact H1|]. split; [exact H2|].
  intros H. specialize (H offline forwarded_subject _ (H1 offline)).
  rewrite H2 in H. discriminate H. vm_compute. lia.
Qed.

(** C1 (amended): for every text [x] whose cleaned form has at least 10
    characters and does not itself match the header-line pattern, cleaning
    the cleaned form again changes nothing. *)
Theorem clean_email_text_idempotent (env : library) (x y : str) :
  clean_email_text env x = Ok y ->
  10 <= length y ->
  header_match y = false ->
  clean_email_text env y = Ok y.
Proof.
  intros Hx Hlen Hh.
  destruct (clean_email_text_shape env x y Hx) as [E|[Hc _]].
  - rewrite E in Hlen. simpl in Hlen. lia.
  - now apply clean_email_text_fixed.
Qed.

Lemma clean_email_text_idempotent_witness :
  clean_email_text offline (lit "Poderiam informar o status do chamado 12345? 3")
  = Ok (lit "Poderiam informar o status do chamado 12345? 3").
Proof.
  apply (clean_email_text_idempotent offline noisy_question).
  - vm_compute. reflexivity.
  - vm_compute. lia.
  - vm_compute. reflexivity.
Defined.

(** ** [find] and [rfind] *)

Lemma startswith_char (c d : ascii) (s : str) :
  startswith [c] (d :: s) = ascii_eqb c d.
Proof. simpl. apply andb_true_r. Qed.

Lemma ascii_eqb_refl (c : ascii) : ascii_eqb c c = true.
Proof. now apply ascii_eqb_eq. Qed.

Lemma ascii_eqb_neq (c d : ascii) : c <> d -> ascii_eqb c d = false.
Proof.
  intros H. destruct (ascii_eqb c d) eqn:E; [|reflexivity].
  now apply ascii_eqb_eq in E.
Qed.

Lemma find_from_first (c : ascii) (pre rest : str) (i : Z) :
  ~ In c pre -> find_from [c] (pre ++ c :: rest) i = (i + Z.of_nat (length pre))%Z.
Proof.
  revert i. induction pre as [|d pre IH]; intros i H.
  - simpl app. unfold find_from. rewrite startswith_char, ascii_eqb_refl. simpl. lia.
  - simpl app. simpl find_from. fold (startswith [c] (d :: pre ++ c :: rest)).
    rewrite startswith_char, ascii_eqb_neq by (intros ->; apply H; now left).
    rewrite IH by (intros Hin; apply H; now right).
    simpl length. lia.
Qed.

Lemma find_from_found (c : ascii) (s : str) (i : Z) :
  find_from [c] s i <> (-1)%Z ->
  exists pre rest, s = pre ++ c :: rest /\ ~ In c pre
                   /\ find_from [c] s i = (i + Z.of_nat (length pre))%Z.
Proof.
  revert i. induction s as [|d s IH]; intros i H.
  - simpl in H. congruence.
  - destruct (ascii_eqb c d) eqn:E.
    + apply ascii_eqb_eq in E. subst d. exists [], s.
      split; [reflexivity|]. split; [intros []|].
      apply (find_from_first c [] s i). intros [].
    + assert (Hs : find_from [c] (d :: s) i = find_from [c] s (i + 1)).
      { simpl find_from. fold (startswith [c] (d :: s)).
        now rewrite startswith_char, E. }
      rewrite Hs in H. destruct (IH _ H) as (pre & rest & -> & Hpre & Hf).
      exists (d :: pre), rest. split; [reflexivity|]. split.
      * intros [->|Hin]; [|auto]. rewrite ascii_eqb_refl in E. discriminate.
      * rewrite Hs, Hf. simpl length. lia.
Qed.

Lemma rfind_from_none (c : ascii) (s : str) (i : Z) :
  ~ In c s -> rfind_from [c] s i = (-1)%Z.
Proof.
  revert i. induction s as [|d s IH]; intros i H.
  - reflexivity.
  - simpl rfind_from. fold (startswith [c] (d :: s)).
    rewrite IH by (intros Hin; apply H; now right).
    rewrite startswith_char, ascii_eqb_neq by (intros ->; apply H; now left).
    reflexivity.
Qed.

Lemma rfind_from_last (c : ascii) (xs post : str) (i : Z) :
  (0 <= i)%Z -> ~ In c post ->
  rfind_from [c] (xs ++ c :: post) i = (i + Z.of_nat (length xs))%Z.
Proof.
  revert i. induction xs as [|d xs IH]; intros i Hi H.
  - simpl app. simpl rfind_from. fold (startswith [c] (c :: post)).
    rewrite rfind_from_none by assumption.
    rewrite startswith_char, ascii_eqb_refl. simpl. lia.
  - simpl app. simpl rfind_from. rewrite IH by (assumption || lia).
    destruct (_ =? _)%Z eqn:E; [apply Z.eqb_eq in E; lia|].
    simpl length. lia.
Qed.

Lemma last_occurrence (c : ascii) (s : str) :
  In c s -> exists xs post, s = xs ++ c :: post /\ ~ In c post.
Proof.
  induction s as [|d s IH]; intros H; [destruct H|].
  destruct (in_dec ascii_dec c s) as [Hin|Hn].
  - destruct (IH Hin) as (xs & post & -> & Hp).
    exists (d :: xs), post. now split.
  - destruct H as [->|H]; [|contradiction].
    exists [], s. now split.
Qed.

Lemma rfind_from_found (c : ascii) (s : str) (i : Z) :
  (0 <= i)%Z -> rfind_from [c] s i <> (-1)%Z ->
  exists xs post, s = xs ++ c :: post /\ ~ In c post
                  /\ rfind_from [c] s i = (i + Z.of_nat (length xs))%Z.
Proof.
  intros Hi H.
  destruct (in_dec ascii_dec c s) as [Hin|Hn].
  - destruct (last_occurrence c s Hin) as (xs & post & -> & Hp).
    exists xs, post. split; [reflexivity|]. split; [assumption|].
    now apply rfind_from_last.
  - now rewrite rfind_from_none in H.
Qed.

Lemma first_occurrence (c : ascii) (s : str) :
  In c s -> exists pre rest, s = pre ++ c :: rest /\ ~ In c pre.
Proof.
  induction s as [|d s IH]; intros H; [destruct H|].
  destruct (ascii_dec d c) as [->|Hd].
  - exists [], s. split; [reflexivity|intros []].
  - destruct H as [H|H]; [contradiction|].
    destruct (IH H) as (pre & rest & -> & Hp).
    exists (d :: pre), rest. split; [reflexivity|].
    intros [E|Hin]; [contradiction|auto].
Qed.

Lemma app_cons_split (a b : ascii) (l1 r1 l2 r2 : str) :
  l1 ++ a :: r1 = l2 ++ b :: r2 -> length l1 < length l2 ->
  exists m, l2 = l1 ++ a :: m /\ r1 = m ++ b :: r2.
Proof.
  revert l2. induction l1 as [|y l1 IH]; intros l2 E Hlen.
  - destruct l2 as [|x l2]; [simpl in Hlen; lia|].
    simpl in E. injection E as -> ->. now exists l2.
  - destruct l2 as [|x l2]; [simpl in Hlen; lia|].
    simpl in E. injection E as -> E. simpl in Hlen.
    destruct (IH l2 E ltac:(lia)) as (m & -> & ->). now exists m.
Qed.

(** ** The brace-delimited region of the model's answer *)

Lemma slice_region (pre mid post : str) :
  slice (pre ++ "{"%char :: mid ++ "}"%char :: post)
        (Z.of_nat (length pre))
        (Z.of_nat (length pre) + 1 + Z.of_nat (length mid) + 1)
  = "{"%char :: mid ++ ["}"%char].
Proof.
  unfold slice. rewrite Nat2Z.id.
  replace (Z.to_nat _) with (S (length mid + 1)) by lia.
  rewrite skipn_app, skipn_all, Nat.sub_diag. simpl.
  f_equal. rewrite firstn_app.
  rewrite firstn_all2 by lia.
  replace (length mid + 1 - length mid) with 1 by lia. reflexivity.
Qed.

Lemma find_rfind_region (pre mid post : str) :
  ~ In "{"%char pre -> ~ In "}"%char post ->
  let text := pre ++ "{"%char :: mid ++ "}"%char :: post in
  find "{" text = Z.of_nat (length pre)
  /\ rfind "}" text = (Z.of_nat (length pre) + 1 + Z.of_nat (length mid))%Z.
Proof.
  intros Hpre Hpost text. split.
  - apply (find_from_first "{"%char pre _ 0 Hpre).
  - unfold rfind, text. change (lit "}") with ["}"%char].
    change (pre ++ "{"%char :: mid ++ "}"%char :: post)
      with (pre ++ ("{"%char :: mid) ++ "}"%char :: post).
    rewrite app_assoc.
    rewrite (rfind_from_last "}"%char (pre ++ "{"%char :: mid) post 0 ltac:(lia) Hpost).
    rewrite length_app. simpl length. lia.
Qed.

Lemma has_braces_region (text : str) :
  has_braces text -> exists region, region_of text region.
Proof.
  intros (pre' & mid' & post' & E).
  assert (H1 : In "{"%char text) by (rewrite E; apply in_elt).
  assert (H2 : In "}"%char text).
  { rewrite E. apply in_or_app. right. right. apply in_elt. }
  destruct (first_occurrence _ _ H1) as (pre & rest & E1 & Hpre).
  destruct (last_occurrence _ _ H2) as (xs & post & E2 & Hpost).
  assert (Hle : length pre <= length pre').
  { destruct (Nat.le_gt_cases (length pre) (length pre')) as [|Hlt]; [assumption|].
    exfalso. rewrite E in E1.
    destruct (app_cons_split _ _ _ _ _ _ E1 Hlt) as (m & -> & _).
    apply Hpre, in_elt. }
  assert (Hge : length pre' + 1 + length mid' <= length xs).
  { destruct (Nat.le_gt_cases (length pre' + 1 + length mid') (length xs)) as [|Hlt];
      [assumption|].
    exfalso. rewrite E in E2.
    change (pre' ++ "{"%char :: mid' ++ "}"%char :: post')
      with (pre' ++ ("{"%char :: mid') ++ "}"%char :: post') in E2.
    rewrite app_assoc in E2. symmetry in E2.
    assert (Hl : length xs < length (pre' ++ "{"%char :: mid'))
      by (rewrite length_app; simpl; lia).
    destruct (app_cons_split _ _ _ _ _ _ E2 Hl) as (m & _ & ->).
    apply Hpost, in_elt. }
  rewrite E1 in E2.
  destruct (app_cons_split _ _ _ _ _ _ E2 ltac:(lia)) as (mid & -> & ->).
  exists ("{"%char :: mid ++ ["}"%char]), pre, mid, post. now repeat split.
Qed.

Section ParseFacts.

Variable env : library.

Lemma parse_json_strict_on_region (pre mid post : str) :
  ~ In "{"%char pre -> ~ In "}"%char post ->
  parse_json_strict env (pre ++ "{"%char :: mid ++ "}"%char :: post)
  = json_loads env ("{"%char :: mid ++ ["}"%char]).
Proof.
  intros Hpre Hpost. unfold parse_json_strict.
  destruct (find_rfind_region pre mid post Hpre Hpost) as [-> ->].
  replace (_ || _ || _)%bool with false.
  - now rewrite slice_region.
  - symmetry. apply orb_false_iff. split; [apply orb_false_iff; split|].
    + apply Z.eqb_neq. lia.
    + apply Z.eqb_neq. lia.
    + apply Z.leb_gt. lia.
Qed.

Lemma parse_json_strict_cases (text : str) :
  (exists region, region_of text region
                  /\ parse_json_strict env text = json_loads env region)
  \/ (~ has_braces text
      /\ parse_json_strict env text = Raise (Exc ValueError NO_JSON)).
Proof.
  destruct ((find "{" text =? -1) || (rfind "}" text =? -1)
            || (rfind "}" text <=? find "{" text))%Z eqn:E.
  - right. split.
    + intros Hb. destruct (has_braces_region text Hb)
        as (region & pre & mid & post & -> & Hpre & Hpost & _).
      destruct (find_rfind_region pre mid post Hpre Hpost) as [E1 E2].
      rewrite E1, E2 in E.
      apply orb_true_iff in E as [E|E]; [apply orb_true_iff in E as [E|E]|].
      * apply Z.eqb_eq in E. lia.
      * apply Z.eqb_eq in E. lia.
      * apply Z.leb_le in E. lia.
    + unfold parse_json_strict. now rewrite E.
  - left. apply orb_false_iff in E as [E E3].
    apply orb_false_iff in E as [E1 E2].
    apply Z.eqb_neq in E1, E2. apply Z.leb_gt in E3.
    destruct (find_from_found "{"%char text 0 E1) as (pre & rest & Et & Hpre & Hf).
    destruct (rfind_from_found "}"%char text 0 ltac:(lia) E2) as (xs & post & Ex & Hpost & Hr).
    unfold find, rfind in E3. change (lit "{") with ["{"%char] in E3.
    change (lit "}") with ["}"%char] in E3. rewrite Hf, Hr in E3.
    rewrite Et in Ex.
    destruct (app_cons_split _ _ _ _ _ _ Ex ltac:(lia)) as (mid & -> & ->).
    exists ("{"%char :: mid ++ ["}"%char]). split.
    + exists pre, mid, post. now repeat split.
    + rewrite Et. now apply parse_json_strict_on_region.
Qed.

Lemma region_of_unique (text r1 r2 : str) :
  region_of text r1 -> region_of text r2 -> r1 = r2.
Proof.
  intros (pre & mid & post & E & Hpre & Hpost & ->)
         (pre' & mid' & post' & E' & Hpre' & Hpost' & ->).
  destruct (find_rfind_region pre mid post Hpre Hpost) as [F R].
  destruct (find_rfind_region pre' mid' post' Hpre' Hpost') as [F' R'].
  rewrite <- E in F, R. rewrite <- E' in F', R'.
  assert (Hp : length pre = length pre') by lia.
  assert (Hm : length mid = length mid') by lia.
  rewrite E' in E.
  assert (E1 : firstn (length pre') (pre' ++ "{"%char :: mid' ++ "}"%char :: post')
               = firstn (length pre') (pre ++ "{"%char :: mid ++ "}"%char :: post))
    by now rewrite E.
  rewrite firstn_app, firstn_all, Nat.sub_diag in E1. simpl in E1.
  rewrite app_nil_r in E1. rewrite <- Hp in E1.
  rewrite firstn_app, firstn_all, Nat.sub_diag in E1. simpl in E1.
  rewrite app_nil_r in E1. subst pre'.
  apply app_inv_head in E. injection E as E.
  assert (E2 : firstn (length mid') (mid' ++ "}"%char :: post')
               = firstn (length mid') (mid ++ "}"%char :: post)) by now rewrite E.
  rewrite firstn_app, firstn_all, Nat.sub_diag in E2. simpl in E2.
  rewrite app_nil_r in E2. rewrite <- Hm in E2.
  rewrite firstn_app, firstn_all, Nat.sub_diag in E2. simpl in E2.
  rewrite app_nil_r in E2. now subst mid'.
Qed.

End ParseFacts.

(** C7: [parse_json_strict] raises [ValueError] when the text has no
    brace-delimited region, that is no ["{"], no ["}"], or every ["}"]
    before the first ["{"]; otherwise its outcome is the outcome of
    [json.loads] on the part from the first ["{"] to the last ["}"], so
    that it raises exactly when there is no region or the region is not
    valid JSON.  [classify_with_gemini] runs it on the text of the model's
    answer, raises when it raises and otherwise normalizes the object it
    returns. *)
Theorem parse_json_strict_spec (env : library) (text : str) :
  (~ In "{"%char text \/ ~ In "}"%char text -> ~ has_braces text)
  /\ (~ has_braces text ->
      parse_json_strict env text = Raise (Exc ValueError NO_JSON))
  /\ (forall region, region_of text region ->
      parse_json_strict env text = json_loads env region)
  /\ (raised (parse_json_strict env text) <->
      ~ has_braces text
      \/ exists region, region_of text region /\ raised (json_loads env region))
  /\ (forall email resp,
         generate_content env email = Ok resp ->
         resp_text resp = Ok text -> text <> [] ->
         classify_with_gemini env email
         = (data <- parse_json_strict env text ;; classification_of env data)).
Proof.
  split; [|split; [|split; [|split]]].
  - intros [H|H] (pre & mid & post & ->); apply H.
    + apply in_elt.
    + apply in_or_app. right. right. apply in_elt.
  - intros Hn. destruct (parse_json_strict_cases env text) as [(r & Hr & _)|[_ E]];
      [|exact E].
    exfalso. apply Hn. destruct Hr as (pre & mid & post & -> & _). now exists pre, mid, post.
  - intros region Hr.
    destruct (parse_json_strict_cases env text) as [(r & Hr' & E)|[Hn _]].
    + now rewrite (region_of_unique text region r Hr Hr').
    + exfalso. apply Hn. destruct Hr as (pre & mid & post & -> & _). now exists pre, mid, post.
  - destruct (parse_json_strict_cases env text) as [(r & Hr & E)|[Hn E]].
    + rewrite E. split.
      * intros H. right. now exists r.
      * intros [Hn|(r' & Hr' & H)].
        -- exfalso. apply Hn. destruct Hr as (pre & mid & post & -> & _).
           now exists pre, mid, post.
        -- now rewrite (region_of_unique text r r' Hr Hr').
    + rewrite E. split; [now left|intros _; exact I].
  - intros email resp Hg Ht Hne. unfold classify_with_gemini, getattr_text.
    rewrite Hg. cbn [bind]. rewrite Ht. cbn [bind].
    destruct text; [congruence|reflexivity].
Qed.

Lemma parse_json_strict_spec_witness :
  parse_json_strict offline wrapped_answer = json_loads offline (lit "{category}")
  /\ parse_json_strict offline (lit "sem chaves") = Raise (Exc ValueError NO_JSON).
Proof.
  split.
  - refine (proj1 (proj2 (proj2 (parse_json_strict_spec offline wrapped_answer))) _ _).
    exists (lit "Claro! "), (lit "category"), (lit " Espero ter ajudado.").
    split; [reflexivity|]. split; [|split; [|reflexivity]].
    + apply allowed_no_char with (s := lit "Claro! "); [reflexivity|].
      repeat constructor.
    + apply allowed_no_char with (s := lit " Espero ter ajudado."); [reflexivity|].
      repeat constructor.
  - refine (proj1 (proj2 (parse_json_strict_spec offline (lit "sem chaves"))) _).
    refine (proj1 (parse_json_strict_spec offline (lit "sem chaves")) _).
    left. apply allowed_no_char with (s := lit "sem chaves"); [reflexivity|].
    repeat constructor.
Defined.

(** ** The normalization of the model's payload *)

Lemma str_eqb_eq (a b : str) : str_eqb a b = true <-> a = b.
Proof.
  revert b. induction a as [|x a IH]; intros [|y b]; simpl;
    try (split; [discriminate|discriminate]); [tauto|].
  rewrite andb_true_iff, ascii_eqb_eq, IH.
  split; [intros [-> ->]; reflexivity|intros E; injection E; auto].
Qed.

Lemma str_in_In (s : str) (options : list str) :
  str_in s options = true <-> In s options.
Proof.
  unfold str_in. rewrite existsb_exists. split.
  - intros (o & Ho & E). apply str_eqb_eq in E. now subst.
  - intros H. exists s. split; [assumption|now apply str_eqb_eq].
Qed.

Lemma not_a_category_hashable (v : json) :
  (hashable v = true -> exists b, not_a_category v = Ok b)
  /\ (hashable v = false -> exists msg, not_a_category v = Raise (Exc TypeError msg)).
Proof. destruct v; simpl; split; intros H; try discriminate H; eauto. Qed.

Lemma text_or_falsy_cases (v : json) :
  (text_or_falsy v = true -> truthy v = false \/ exists s, v = JStr s)
  /\ (text_or_falsy v = false -> truthy v = true /\ forall s, v <> JStr s).
Proof.
  unfold text_or_falsy. destruct (truthy v) eqn:T.
  - destruct v; split; intros H; try discriminate H; eauto;
      split; try reflexivity; intros; discriminate.
  - destruct v; split; intros H; try discriminate H; eauto.
Qed.

Lemma normalize_intent_cases (v : json) :
  (text_or_falsy v = true -> exists s, normalize_intent v = Ok s /\ In s intents)
  /\ (text_or_falsy v = false ->
      exists msg, normalize_intent v = Raise (Exc AttributeError msg)).
Proof.
  assert (Ho : In OUTROS intents) by (vm_compute; tauto).
  destruct (text_or_falsy_cases v) as [H1 H2].
  unfold normalize_intent. split; intros H.
  - destruct (H1 H) as [T|[s ->]].
    + rewrite T. simpl. eauto.
    + destruct (truthy (JStr s)); cbn [negb]; [|eauto].
      destruct (str_in _ intents) eqn:E; [|eauto].
      eexists. split; [reflexivity|]. now apply str_in_In.
  - destruct (H2 H) as [T Hs]. rewrite T. simpl.
    destruct v as [|b|z|f|s|l|l]; try (eexists; reflexivity). now destruct (Hs s).
Qed.

Lemma reply_text_cases (v : json) :
  (text_or_falsy v = true -> exists s, (if truthy v then v else JStr []) = JStr s)
  /\ (text_or_falsy v = false ->
      (if truthy v then v else JStr []) = v /\ forall s, v <> JStr s).
Proof.
  destruct (text_or_falsy_cases v) as [H1 H2]. split; intros H.
  - destruct (H1 H) as [T|[s ->]].
    + rewrite T. eauto.
    + destruct (truthy (JStr s)); eauto.
  - destruct (H2 H) as [T Hs]. rewrite T. now split.
Qed.

Section PayloadFacts.

Variable env : library.
Variable items : list (str * json).

Local Abbreviation c := (category_field items).
Local Abbreviation i := (intent_field items).
Local Abbreviation f := (confidence_field items).
Local Abbreviation r := (reply_field items).
Local Abbreviation r' := (if truthy r then r else JStr []).

Lemma classification_of_unfold :
  classification_of env (JObj items) =
  (replace <- not_a_category c ;;
   intent <- normalize_intent i ;;
   conf <- py_float env f ;;
   reply <- match r' with
            | JStr s => Ok (strip s)
            | _ => Raise (no_attribute r' "strip")
            end ;;
   Ok {| category := match c with
                     | JStr s => if replace then IMPRODUTIVO else s
                     | _ => IMPRODUTIVO
                     end;
         confidence := conf;
         suggested_reply := if is_empty reply then DEFAULT_REPLY else reply;
         intent := intent |}).
Proof. reflexivity. Qed.

Lemma classification_of_accepts :
  accepted_payload env items ->
  exists res, classification_of env (JObj items) = Ok res.
Proof.
  intros (A1 & A2 & [x A3] & A4). rewrite classification_of_unfold.
  destruct (proj1 (not_a_category_hashable c) A1) as [b ->].
  destruct (proj1 (normalize_intent_cases i) A2) as (s & -> & _).
  rewrite A3.
  destruct (proj1 (reply_text_cases r) A4) as [t Ht]. rewrite Ht.
  simpl. eauto.
Qed.

Lemma classification_of_rejects (res : classification) :
  classification_of env (JObj items) = Ok res -> accepted_payload env items.
Proof.
  rewrite classification_of_unfold. unfold accepted_payload.
  intros H.
  destruct (hashable c) eqn:E1.
  2:{ destruct (proj2 (not_a_category_hashable c) E1) as [m Hm].
      rewrite Hm in H. discriminate H. }
  destruct (not_a_category c) as [b|]; [|discriminate H]. simpl in H.
  destruct (text_or_falsy i) eqn:E2.
  2:{ destruct (proj2 (normalize_intent_cases i) E2) as [m Hm].
      rewrite Hm in H. discriminate H. }
  destruct (normalize_intent i) as [s|]; [|discriminate H]. simpl in H.
  destruct (py_float env f) as [x|] eqn:E3; [|discriminate H]. simpl in H.
  destruct (text_or_falsy r) eqn:E4.
  2:{ destruct (proj2 (reply_text_cases r) E4) as [Hr Hs].
      rewrite Hr in H. destruct r as [| | | |t| |]; try discriminate H.
      now destruct (Hs t). }
  repeat split; eauto.
Qed.

Lemma classification_of_valid (res : classification) :
  classification_of env (JObj items) = Ok res ->
  valid_classification res /\ py_float env f = Ok (confidence res).
Proof.
  rewrite classification_of_unfold. intros H.
  destruct (not_a_category c) as [b|] eqn:E1; [|discriminate H]. simpl in H.
  destruct (text_or_falsy i) eqn:E2.
  2:{ destruct (proj2 (normalize_intent_cases i) E2) as [m Hm].
      rewrite Hm in H. discriminate H. }
  destruct (proj1 (normalize_intent_cases i) E2) as (s & Hs & Hin).
  rewrite Hs in H. simpl in H.
  destruct (py_float env f) as [x|] eqn:E3; [|discriminate H]. simpl in H.
  destruct r' as [| | | |t| |]; try discriminate H. simpl in H.
  injection H as <-. split; [|reflexivity]. repeat split; simpl.
  - destruct c as [| | | |k| |]; auto.
    destruct b; [now right|].
    unfold not_a_category in E1. injection E1 as E1.
    apply negb_false_iff in E1.
    change (str_in k [PRODUTIVO; IMPRODUTIVO] = true) in E1. apply str_in_In in E1.
    destruct E1 as [<-|[<-|[]]]; auto.
  - exact Hin.
  - destruct (strip t) eqn:Et; simpl; discriminate.
Qed.

End PayloadFacts.

(** C3, as stated, fails: on the object [{"confidence": null}] the
    conversion [float(None)] raises [TypeError], whatever the libraries
    do. *)
Lemma classification_of_raises_on_null_confidence :
  (forall env, exists msg, classification_of env null_confidence = Raise (Exc TypeError msg))
  /\ ~ (forall env items, exists res, classification_of env (JObj items) = Ok res).
Proof.
  assert (H : forall env, exists msg,
               classification_of env null_confidence = Raise (Exc TypeError msg))
    by (intros env; eexists; reflexivity).
  split; [exact H|].
  intros Hall. destruct (Hall offline [(lit "confidence", JNull)]) as [res Hres].
  destruct (H offline) as [msg Hmsg]. unfold null_confidence in Hmsg.
  rewrite Hmsg in Hres. discriminate Hres.
Qed.

(** C3 (amended): the normalization of a parsed object completes exactly
    when its category is no list and no object, its intent and its
    suggested_reply are each missing, falsy or a string, and its confidence
    is missing or a value [float] converts; on every other object it
    raises.  When it completes the result is structurally valid, and the
    confidence is 0.7 when the field is missing. *)
Theorem classification_of_completes (env : library) (items : list (str * json)) :
  ((exists res, classification_of env (JObj items) = Ok res)
   <-> accepted_payload env items)
  /\ (forall res, classification_of env (JObj items) = Ok res ->
      valid_classification res
      /\ (lookup "confidence" items = None -> confidence res = float_0_7)).
Proof.
  split.
  - split.
    + intros [res H]. exact (classification_of_rejects env items res H).
    + apply classification_of_accepts.
  - intros res H. destruct (classification_of_valid env items res H) as [Hv Hf].
    split; [exact Hv|]. intros Hn. unfold confidence_field in Hf.
    rewrite Hn in Hf. simpl in Hf. congruence.
Qed.

Lemma classification_of_completes_witness :
  exists res, classification_of offline (JObj thanks_payload) = Ok res.
Proof.
  apply (proj1 (classification_of_completes offline thanks_payload)).
  repeat split; try reflexivity. eexists. vm_compute. reflexivity.
Defined.

(** C4, as stated, fails: the payload [{"confidence": 5}] is converted to
    the float 5.0 and returned as it is, by [classification_of] under every
    library and by [classify_with_gemini] for a model that answers so. *)
Lemma confidence_not_bounded :
  (forall env, exists res,
      classification_of env confidence_five = Ok res
      /\ in_unit_interval (confidence res) = false)
  /\ (exists res,
         classify_with_gemini five_model status_question = Ok res
         /\ in_unit_interval (confidence res) = false)
  /\ ~ (forall env data res,
          classification_of env data = Ok res ->
          in_unit_interval (confidence res) = true).
Proof.
  assert (H : forall env, exists res,
               classification_of env confidence_five = Ok res
               /\ in_unit_interval (confidence res) = false).
  { intros env. eexists. split; [reflexivity|]. vm_compute. reflexivity. }
  split; [exact H|]. split.
  - eexists. split; [vm_compute; reflexivity|]. vm_compute. reflexivity.
  - intros Hall. destruct (H offline) as (res & Hres & Hout).
    rewrite (Hall _ _ _ Hres) in Hout. discriminate Hout.
Qed.

(** C4 (amended): the confidence of a classification is [float] of the
    payload's confidence field, and 0.7 when the field is missing; it is
    not clamped, so it lies in [0,1] when the field is missing and otherwise
    exactly when the converted value does. *)
Theorem confidence_is_converted_field
        (env : library) (items : list (str * json)) (res : classification) :
  classification_of env (JObj items) = Ok res ->
  match lookup "confidence" items with
  | Some v => py_float env v = Ok (confidence res)
  | None => confidence res = float_0_7 /\ in_unit_interval (confidence res) = true
  end.
Proof.
  intros H. destruct (classification_of_valid env items res H) as [_ Hf].
  unfold confidence_field in Hf.
  destruct (lookup "confidence" items) as [v|]; simpl in Hf; [exact Hf|].
  injection Hf as <-. split; reflexivity.
Qed.

Lemma confidence_is_converted_field_witness :
  py_float offline (JInt 1) = Ok (confidence thanks_result).
Proof.
  exact (confidence_is_converted_field offline thanks_payload thanks_result eq_refl).
Defined.

(** ** The document decoder *)

Lemma long_enough_length (text : str) :
  long_enough text = (100 <? length (strip text)).
Proof. unfold long_enough. destruct text; reflexivity. Qed.

Lemma filter_nonspace_cons (c : ascii) (s : str) :
  filter nonspace (c :: s)
  = if is_space c then filter nonspace s else c :: filter nonspace s.
Proof. simpl. unfold nonspace at 1. now destruct (is_space c). Qed.

Lemma filter_nonspace_lstrip (s : str) :
  filter nonspace (lstrip s) = filter nonspace s.
Proof.
  induction s as [|c s IH]; [reflexivity|].
  rewrite filter_nonspace_cons. cbn [lstrip].
  destruct (is_space c) eqn:Ec; [exact IH|].
  now rewrite filter_nonspace_cons, Ec.
Qed.

Lemma filter_nonspace_rstrip (s : str) :
  filter nonspace (rstrip s) = filter nonspace s.
Proof.
  induction s as [|c s IH]; [reflexivity|].
  rewrite filter_nonspace_cons, <- IH. cbn [rstrip].
  destruct (rstrip s) as [|d r'] eqn:E.
  - destruct (is_space c) eqn:Ec; [reflexivity|].
    now rewrite filter_nonspace_cons, Ec.
  - now rewrite filter_nonspace_cons.
Qed.

Lemma non_whitespace_length_strip (s : str) :
  non_whitespace_length s <= length (strip s).
Proof.
  unfold non_whitespace_length, strip.
  rewrite <- filter_nonspace_lstrip, <- filter_nonspace_rstrip.
  apply filter_length_le.
Qed.

Lemma read_pdf_chain (env : library) (data : bytes) :
  read_pdf env data = Ok (first_accepted (pdf_strategies env data)).
Proof.
  unfold read_pdf, pdf_strategies, first_accepted.
  destruct (attempt (pypdf2_extract_text env data) has_content); [reflexivity|].
  destruct (attempt (pdfminer_extract_text env data) has_content); [reflexivity|].
  destruct (attempt (decode_utf8_ignore env data) long_enough); [reflexivity|].
  destruct (attempt (Ok (decode_latin1 data)) long_enough); reflexivity.
Qed.

(** C5, as stated, fails: the text [padded] has two characters that are
    not white space, and the decoding is accepted all the same, because
    the test measures the stripped text, blanks inside included.  With
    both PDF readers failing, [read_pdf] returns it. *)
Lemma long_enough_counts_inner_spaces :
  non_whitespace_length padded = 2
  /\ long_enough padded = true
  /\ read_pdf offline (encode padded) = Ok padded
  /\ ~ (forall text, long_enough text = true <-> 100 < non_whitespace_length text).
Proof.
  assert (H1 : non_whitespace_length padded = 2) by (vm_compute; reflexivity).
  assert (H2 : long_enough padded = true) by (vm_compute; reflexivity).
  split; [exact H1|]. split; [exact H2|]. split; [vm_compute; reflexivity|].
  intros Hall. apply Hall in H2. rewrite H1 in H2. lia.
Qed.

(** C5 (amended): when neither PDF reader yields content, the UTF-8
    decoding is returned if and only if the length of the decoded text
    after stripping the white space at its two ends exceeds 100 (which it
    does whenever more than 100 of its characters are not white space);
    otherwise the Latin-1 decoding is returned under the same test, and the
    empty text when that fails too. *)
Theorem read_pdf_text_fallback (env : library) (data : bytes) :
  attempt (pypdf2_extract_text env data) has_content = NextStrategy ->
  attempt (pdfminer_extract_text env data) has_content = NextStrategy ->
  read_pdf env data
  = Ok (match decode_utf8_ignore env data with
        | Ok text =>
            if 100 <? length (strip text) then text else latin1_or_empty data
        | Raise _ => latin1_or_empty data
        end)
  /\ (forall text, 100 < non_whitespace_length text ->
                   (100 <? length (strip text)) = true).
Proof.
  intros H1 H2. split.
  - unfold read_pdf. rewrite H1, H2. unfold attempt, latin1_or_empty.
    destruct (decode_utf8_ignore env data) as [text|e];
      rewrite ?long_enough_length.
    + destruct (100 <? length (strip text)); [reflexivity|].
      now destruct (100 <? length (strip (decode_latin1 data))).
    + now destruct (100 <? length (strip (decode_latin1 data))).
  - intros text H. apply Nat.ltb_lt.
    pose proof (non_whitespace_length_strip text). lia.
Qed.

Lemma read_pdf_text_fallback_witness :
  read_pdf offline (encode padded) = Ok padded.
Proof.
  exact (proj1 (read_pdf_text_fallback offline (encode padded) eq_refl eq_refl)).
Defined.

(** C6: the document decoder returns a text for every file name and every
    byte sequence, whatever the libraries raise; on a PDF it returns what
    the first strategy with accepted content produced, in the order PyPDF2,
    pdfminer, UTF-8, Latin-1, and the empty text when no strategy is
    accepted. *)
Theorem read_file_bytes_to_text_never_raises
        (env : library) (name : str) (data : bytes) :
  (exists text, read_file_bytes_to_text env name data = Ok text)
  /\ read_pdf env data = Ok (first_accepted (pdf_strategies env data))
  /\ (Forall (fun s => attempt (fst s) (snd s) = NextStrategy)
             (pdf_strategies env data) ->
      read_pdf env data = Ok []).
Proof.
  split; [|split].
  - unfold read_file_bytes_to_text.
    destruct (endswith ".pdf" (lower name)).
    + rewrite read_pdf_chain. eauto.
    + destruct (decode_utf8_ignore env data); simpl; eauto.
  - apply read_pdf_chain.
  - intros H. rewrite read_pdf_chain. f_equal.
    induction H as [|[r accept] rest Hs Hrest IH]; [reflexivity|].
    simpl in Hs |- *. now rewrite Hs.
Qed.

Lemma read_file_bytes_to_text_never_raises_witness :
  read_pdf broken (encode status_question) = Ok [].
Proof.
  apply (read_file_bytes_to_text_never_raises broken (lit "chamado.pdf")).
  repeat constructor.
Defined.


(** ** Substitutions and their fuel *)

Lemma re_sub_fuel_any (m : str -> option nat) (repl : str) (n1 n2 : nat) (s : str) :
  length s <= n1 -> length s <= n2 ->
  re_sub_fuel m repl n1 s = re_sub_fuel m repl n2 s.
Proof.
  revert n2 s. induction n1 as [|n1 IH]; intros n2 s H1 H2.
  - destruct s; [|simpl in H1; lia]. now destruct n2.
  - destruct s as [|c s]; [now destruct n2|].
    destruct n2 as [|n2]; [simpl in H2; lia|].
    simpl in H1, H2. simpl re_sub_fuel.
    destruct (m (c :: s)) as [k|].
    + f_equal. pose proof (length_skipn_le (k - 1) s). apply IH; lia.
    + f_equal. apply IH; lia.
Qed.

(** The fuel of [re_sub] is enough: more fuel changes nothing. *)
Lemma re_sub_fuel_enough (m : str -> option nat) (repl : str) (n : nat) (s : str) :
  length s <= n -> re_sub_fuel m repl n s = re_sub m repl s.
Proof. intros H. apply re_sub_fuel_any; [assumption|apply le_n]. Qed.

(** ** Outcomes of the classification client *)

Lemma classification_of_object (env : library) (data : json) (res : classification) :
  classification_of env data = Ok res -> exists items, data = JObj items.
Proof. destruct data; try discriminate. eauto. Qed.

Lemma classify_with_gemini_payload (env : library) (email : str) (res : classification) :
  classify_with_gemini env email = Ok res ->
  exists items, classification_of env (JObj items) = Ok res.
Proof.
  unfold classify_with_gemini. intros H.
  destruct (generate_content env email) as [resp|]; [|discriminate H]. cbn [bind] in H.
  destruct (getattr_text resp) as [o|]; [|discriminate H]. cbn [bind] in H.
  destruct (if option_truthy o then _ else _) as [text|]; [|discriminate H].
  cbn [bind] in H.
  destruct (parse_json_strict env text) as [data|]; [|discriminate H]. cbn [bind] in H.
  destruct (classification_of_object env data res H) as [items ->]. eauto.
Qed.

(** Whatever the model and the libraries return, a classification that
    [classify_with_gemini] returns has the category "Produtivo" or
    "Improdutivo", one of the seven canonical intents and a reply that is
    not empty. *)
Theorem classify_with_gemini_valid (env : library) (email : str) (res : classification) :
  classify_with_gemini env email = Ok res -> valid_classification res.
Proof.
  intros H. destruct (classify_with_gemini_payload env email res H) as [items Hi].
  exact (proj1 (classification_of_valid env items res Hi)).
Qed.

Lemma classify_with_gemini_valid_witness : valid_classification five_result.
Proof.
  exact (classify_with_gemini_valid five_model status_question five_result eq_refl).
Defined.

(** How [classify_with_gemini] reads the model's answer: an error of the
    call is passed on; so is an error of [resp.text] other than an
    [AttributeError]; when [resp.text] is missing or empty the text of the
    first part of the first candidate is used instead, and if that cannot
    be read either the error is a [RuntimeError] with the program's own
    message, whatever the library raised. *)
Theorem classify_with_gemini_reads_answer (env : library) (email : str) :
  (forall e, generate_content env email = Raise e ->
             classify_with_gemini env email = Raise e)
  /\ (forall resp kind msg,
         generate_content env email = Ok resp ->
         resp_text resp = Raise (Exc kind msg) -> kind <> AttributeError ->
         classify_with_gemini env email = Raise (Exc kind msg))
  /\ (forall resp,
         generate_content env email = Ok resp -> no_text resp ->
         raised (resp_first_part_text resp) ->
         classify_with_gemini env email = Raise (Exc RuntimeError NO_RESPONSE))
  /\ (forall resp text,
         generate_content env email = Ok resp -> no_text resp ->
         resp_first_part_text resp = Ok text ->
         classify_with_gemini env email
         = (data <- parse_json_strict env text ;; classification_of env data)).
Proof.
  unfold classify_with_gemini, getattr_text, no_text.
  split; [|split; [|split]].
  - intros e ->. reflexivity.
  - intros resp kind msg Hg Ht Hk. rewrite Hg. cbn [bind]. rewrite Ht.
    destruct kind; try reflexivity. congruence.
  - intros resp Hg Ht Hr. rewrite Hg. cbn [bind].
    destruct (resp_first_part_text resp); [destruct Hr|].
    destruct Ht as [->|[msg ->]]; reflexivity.
  - intros resp text Hg Ht Hr. rewrite Hg. cbn [bind].
    destruct Ht as [->|[msg ->]]; cbn [bind option_truthy]; now rewrite Hr.
Qed.

Lemma classify_with_gemini_reads_answer_witness :
  classify_with_gemini silent_model status_question
  = Raise (Exc RuntimeError NO_RESPONSE).
Proof.
  refine (proj1 (proj2 (proj2 (classify_with_gemini_reads_answer
                                 silent_model status_question)))
            silent_response eq_refl _ _).
  - left. reflexivity.
  - exact I.
Defined.

(** ** The fields of a classification *)

(** What the client makes of the fields of the model's object: the
    category is [Produtivo] only for the exact string [Produtivo] (another
    letter case gives [Improdutivo]); the reply has no white space at its
    ends, and is the stripped field when that is a string with more than
    white space, the default reply otherwise; the intent is the normalized
    field. *)
Theorem classification_of_fields (env : library) (items : list (str * json))
        (res : classification) :
  classification_of env (JObj items) = Ok res ->
  (category res = PRODUTIVO <-> category_field items = JStr PRODUTIVO)
  /\ strip (suggested_reply res) = suggested_reply res
  /\ suggested_reply res
     = match reply_field items with
       | JStr s => if is_empty (strip s) then DEFAULT_REPLY else strip s
       | _ => DEFAULT_REPLY
       end
  /\ normalize_intent (intent_field items) = Ok (intent res).
Proof.
  rewrite classification_of_unfold. intros H.
  destruct (not_a_category (category_field items)) as [b|] eqn:E1; [|discriminate H].
  cbn [bind] in H.
  destruct (normalize_intent (intent_field items)) as [i|] eqn:E2; [|discriminate H].
  cbn [bind] in H.
  destruct (py_float env (confidence_field items)) as [x|] eqn:E3; [|discriminate H].
  cbn [bind] in H.
  assert (Hreply : exists s,
             (if truthy (reply_field items) then reply_field items else JStr []) = JStr s
             /\ match reply_field items with
                | JStr s' => if is_empty (strip s') then DEFAULT_REPLY else strip s'
                | _ => DEFAULT_REPLY
                end = if is_empty (strip s) then DEFAULT_REPLY else strip s).
  { destruct (reply_field items) as [|b'|z|fl|s|l|l] eqn:Er;
      try (destruct (truthy _); [discriminate H|exists []; split; reflexivity]).
    destruct s as [|a s]; [exists []|exists (a :: s)]; split; reflexivity. }
  destruct Hreply as (s & Hs & Hm). rewrite Hs in H. cbn [bind] in H.
  injection H as <-. cbn [category suggested_reply intent].
  split; [|split; [|split]].
  - destruct (category_field items) as [| | | |k| |] eqn:Ec;
      try (split; intros Hk; discriminate Hk).
    injection E1 as E1. destruct b.
    + apply negb_true_iff in E1. split; intros Hk; [discriminate Hk|].
      injection Hk as ->. discriminate E1.
    + split; [now intros ->|now intros [= ->]].
  - destruct (strip s) as [|d r] eqn:E; [reflexivity|].
    cbn [is_empty]. rewrite <- E. apply strip_idem.
  - now rewrite Hm.
  - reflexivity.
Qed.

Lemma classification_of_fields_witness :
  suggested_reply thanks_result = lit "De nada!".
Proof.
  exact (proj1 (proj2 (proj2 (classification_of_fields offline thanks_payload thanks_result
                                eq_refl)))).
Defined.

(** ** Letter case and white space *)

Lemma lower_char_idem (c : ascii) : lower_char (lower_char c) = lower_char c.
Proof. destruct c as [[] [] [] [] [] [] [] []]; vm_compute; reflexivity. Qed.

Lemma is_space_lower_char (c : ascii) : is_space (lower_char c) = is_space c.
Proof. destruct c as [[] [] [] [] [] [] [] []]; vm_compute; reflexivity. Qed.

Lemma colon_lower_char (c : ascii) : ascii_eqb ":" (lower_char c) = ascii_eqb ":" c.
Proof. destruct c as [[] [] [] [] [] [] [] []]; vm_compute; reflexivity. Qed.

Lemma lower_idem (s : str) : lower (lower s) = lower s.
Proof.
  unfold lower. rewrite map_map. apply map_ext. intros c. apply lower_char_idem.
Qed.

Lemma lower_lstrip (s : str) : lower (lstrip s) = lstrip (lower s).
Proof.
  induction s as [|c s IH]; [reflexivity|].
  cbn [lstrip lower map]. rewrite is_space_lower_char.
  destruct (is_space c); [exact IH|reflexivity].
Qed.

Lemma lower_rstrip (s : str) : lower (rstrip s) = rstrip (lower s).
Proof.
  induction s as [|c s IH]; [reflexivity|].
  cbn [rstrip lower map]. fold (lower s). rewrite <- IH.
  destruct (rstrip s) as [|d r]; cbn [lower map].
  - rewrite is_space_lower_char. now destruct (is_space c).
  - reflexivity.
Qed.

Lemma lower_strip (s : str) : lower (strip s) = strip (lower s).
Proof. unfold strip. now rewrite lower_rstrip, lower_lstrip. Qed.

Lemma lstrip_split (s : str) : exists w, s = w ++ lstrip s /\ blank w.
Proof.
  induction s as [|c s (w & Hw & Hb)].
  - exists []. split; [reflexivity|constructor].
  - cbn [lstrip]. destruct (is_space c) eqn:Ec.
    + exists (c :: w). split; [simpl; now f_equal|now constructor].
    + exists []. split; [reflexivity|constructor].
Qed.

Lemma lstrip_blank_app (w s : str) : blank w -> lstrip (w ++ s) = lstrip s.
Proof.
  induction 1 as [|c w Hc _ IH]; [reflexivity|]. simpl. now rewrite Hc.
Qed.

Lemma rstrip_nil_blank (s : str) : rstrip s = [] -> blank s.
Proof.
  induction s as [|c s IH]; [constructor|].
  cbn [rstrip]. destruct (rstrip s) as [|d r]; [|discriminate].
  destruct (is_space c) eqn:Ec; [|discriminate].
  intros _. constructor; [exact Ec|now apply IH].
Qed.

Lemma strip_nil_blank (s : str) : strip s = [] -> blank s.
Proof.
  unfold strip. intros H. apply rstrip_nil_blank in H.
  destruct (lstrip_split s) as (w & Hw & Hb). rewrite Hw.
  apply Forall_app. now split.
Qed.

Lemma blank_strip_nil (s : str) : blank s -> strip s = [].
Proof.
  intros H. unfold strip.
  replace (lstrip s) with (@nil ascii); [reflexivity|].
  induction H as [|c s Hc _ IH]; [reflexivity|]. simpl. now rewrite Hc.
Qed.

(** ** Intents *)

(** [normalize_intent] on the examples of the specification, and its
    range: every intent it returns is one of the seven canonical ones. *)
Theorem normalize_intent_canonical :
  normalize_intent (JStr (lit "DUVIDA")) = Ok DUVIDA
  /\ normalize_intent (JStr []) = Ok OUTROS
  /\ normalize_intent (JStr (lit "random")) = Ok OUTROS
  /\ normalize_intent JNull = Ok OUTROS
  /\ forall v s, normalize_intent v = Ok s -> In s intents.
Proof.
  repeat (split; [reflexivity|]).
  intros v s H. destruct (text_or_falsy v) eqn:E.
  - destruct (proj1 (normalize_intent_cases v) E) as (s' & Hs & Hin). congruence.
  - destruct (proj2 (normalize_intent_cases v) E) as [msg Hm]. congruence.
Qed.

(** [normalize_intent] ignores the letter case of its argument and the
    white space around it, and every intent it returns is one of the seven
    canonical intents and is left unchanged by a second normalization. *)
Theorem normalize_intent_stable :
  (forall s, normalize_intent (JStr (lower s)) = normalize_intent (JStr s))
  /\ (forall s, normalize_intent (JStr (strip s)) = normalize_intent (JStr s))
  /\ (forall v r, normalize_intent v = Ok r ->
                  In r intents /\ normalize_intent (JStr r) = Ok r).
Proof.
  split; [|split].
  - intros [|c s]; [reflexivity|].
    unfold normalize_intent. cbn [truthy lower map negb].
    change (lower_char c :: map lower_char s) with (lower (c :: s)).
    now rewrite <- lower_strip, lower_idem.
  - intros s. unfold normalize_intent.
    destruct (strip s) as [|d r] eqn:E.
    + destruct (truthy (JStr s)); reflexivity.
    + assert (Hs : truthy (JStr s) = true) by (destruct s; [discriminate E|reflexivity]).
      pose proof (strip_idem s) as Hi. rewrite E in Hi.
      rewrite Hs, Hi. reflexivity.
  - intros v r H.
    assert (Hin : In r intents).
    { destruct (text_or_falsy v) eqn:E.
      - destruct (proj1 (normalize_intent_cases v) E) as (s' & Hs & Hin). congruence.
      - destruct (proj2 (normalize_intent_cases v) E) as [msg Hm]. congruence. }
    split; [exact Hin|].
    unfold intents in Hin. cbn [In] in Hin.
    repeat (destruct Hin as [<-|Hin]; [vm_compute; reflexivity|]). destruct Hin.
Qed.

(** ** Prefixes and suffixes *)

Lemma startswith_prefix (p s : str) :
  startswith p s = true <-> exists r, s = p ++ r.
Proof.
  revert s. induction p as [|x p IH]; intros s.
  - simpl. split; eauto.
  - destruct s as [|y s]; simpl.
    + split; [discriminate|]. intros [r Hr]. discriminate Hr.
    + rewrite andb_true_iff, ascii_eqb_eq, IH. split.
      * intros [-> [r ->]]. eauto.
      * intros [r Hr]. injection Hr as -> ->. eauto.
Qed.

Lemma endswith_suffix (p s : str) :
  endswith p s = true <-> exists q, s = q ++ p.
Proof.
  unfold endswith. rewrite startswith_prefix. split.
  - intros [r Hr]. exists (rev r).
    rewrite <- (rev_involutive s), Hr, rev_app_distr. now rewrite rev_involutive.
  - intros [q ->]. exists (rev q). apply rev_app_distr.
Qed.

Lemma has_extension_endswith (ext name : str) :
  endswith ext (lower name) = true <-> has_extension ext name.
Proof.
  rewrite endswith_suffix. unfold has_extension, lower. split.
  - intros [q Hq]. apply map_eq_app in Hq as (stem & e & -> & _ & He). eauto.
  - intros (stem & e & -> & <-). exists (map lower_char stem). apply map_app.
Qed.

(** The extension test of the handlers accepts exactly the names that end
    in [.pdf] or [.txt] in any letter case, [.PDF] and [.Txt] included; the
    stem may be empty. *)
Theorem supported_name_spec (name : str) :
  supported_name name = true
  <-> has_extension ".pdf" name \/ has_extension ".txt" name.
Proof.
  unfold supported_name. now rewrite orb_true_iff, !has_extension_endswith.
Qed.

(** ** The header pattern *)

Lemma existsb_ext_in {A : Type} (f g : A -> bool) (l : list A) :
  (forall x, In x l -> f x = g x) -> existsb f l = existsb g l.
Proof.
  induction l as [|x l IH]; intros H; [reflexivity|].
  simpl. rewrite (H x) by now left. f_equal. apply IH. intros y Hy. apply H. now right.
Qed.

Lemma startswith_colon_lower (s : str) :
  startswith ":" (lower s) = startswith ":" s.
Proof.
  destruct s as [|c s]; [reflexivity|].
  cbn [lit list_ascii_of_string startswith lower map].
  now rewrite colon_lower_char.
Qed.

Lemma header_match_lower (line : str) : header_match (lower line) = header_match line.
Proof.
  unfold header_match. apply existsb_ext_in. intros name _.
  unfold lower at 2 3. rewrite firstn_map, skipn_map.
  fold (lower (firstn (length name) line)) (lower (skipn (length name) line)).
  now rewrite lower_idem, <- lower_lstrip, startswith_colon_lower.
Qed.

Lemma header_match_header_line (line : str) :
  header_match line = true <-> header_line line.
Proof.
  unfold header_match, header_line. rewrite existsb_exists. split.
  - intros (name & Hin & H). apply andb_true_iff in H as [H1 H2].
    apply startswith_prefix in H1 as [r Hr], H2 as [rest Hrest].
    assert (Hlen : length (lower (firstn (length name) line)) <= length name).
    { unfold lower. rewrite length_map. apply firstn_le_length. }
    rewrite Hr, length_app in Hlen.
    assert (r = []) by (destruct r; [reflexivity|simpl in Hlen; lia]). subst r.
    rewrite app_nil_r in Hr.
    destruct (lstrip_split (skipn (length name) line)) as (w & Hw & Hb).
    exists (firstn (length name) line), w, rest. split; [|split].
    + rewrite <- (firstn_skipn (length name) line) at 1. f_equal.
      rewrite Hw at 1. now rewrite Hrest.
    + now rewrite Hr.
    + exact Hb.
  - intros (name & w & rest & -> & Hin & Hb).
    exists (lower name). split; [exact Hin|].
    assert (Hlen : length (lower name) = length name) by apply length_map.
    rewrite Hlen, firstn_app, Nat.sub_diag, firstn_all, firstn_O, app_nil_r.
    rewrite skipn_app, Nat.sub_diag, skipn_all, skipn_O. cbn [app].
    rewrite lstrip_blank_app by exact Hb.
    apply andb_true_iff. split.
    + apply startswith_prefix. exists []. now rewrite app_nil_r.
    + reflexivity.
Qed.

(** On the strings of this development, whose characters are Latin-1,
    [HEADER_RE] matches a line exactly when the line starts with one of the
    thirteen header names, written in any letter case, followed by any
    white space and a colon; a line and its lower-case form are matched
    alike; and the loop of the cleaner keeps a stripped line exactly when
    it has at least 3 characters, is no header line and does not start
    with the quote marker.  (Beyond Latin-1, [re.I] also accepts U+017F for
    [s] and U+0130 and U+0131 for [i].) *)
Theorem header_match_spec (line : str) :
  (header_match line = true <-> header_line line)
  /\ header_match (lower line) = header_match line
  /\ (keep_line line = true
      <-> 3 <= length line /\ ~ header_line line /\ startswith ">" line = false).
Proof.
  split; [apply header_match_header_line|]. split; [apply header_match_lower|].
  rewrite <- header_match_header_line. unfold keep_line.
  destruct line as [|c line]; [simpl; split; [discriminate|lia]|].
  destruct (header_match (c :: line)).
  - split; [discriminate|]. intros (_ & H & _). now destruct H.
  - destruct (startswith ">" (c :: line)).
    + split; [discriminate|]. intros (_ & _ & H). discriminate H.
    + destruct (length (c :: line) <? 3) eqn:E.
      * apply Nat.ltb_lt in E. split; [discriminate|]. lia.
      * apply Nat.ltb_ge in E. split; [|reflexivity].
        intros _. split; [exact E|]. split; [discriminate|reflexivity].
Qed.

(** ** The document decoder: texts and names *)

(** [read_pdf] never returns a text that is all white space: its result is
    either the empty text or a text with a character that is not white
    space, whichever strategy produced it. *)
Theorem read_pdf_text_or_empty (env : library) (data : bytes) :
  exists text, read_pdf env data = Ok text /\ (text = [] \/ strip text <> []).
Proof.
  assert (Hc : forall t, has_content t = true -> strip t <> []).
  { unfold has_content. intros t Ht E. rewrite E in Ht. discriminate Ht. }
  assert (Hl : forall t, long_enough t = true -> strip t <> []).
  { intros t Ht E. rewrite long_enough_length, E in Ht. discriminate Ht. }
  unfold read_pdf, attempt.
  destruct (pypdf2_extract_text env data) as [t1|_].
  - destruct (has_content t1) eqn:E1; [eauto|].
    destruct (pdfminer_extract_text env data) as [t2|_].
    + destruct (has_content t2) eqn:E2; [eauto|].
      destruct (decode_utf8_ignore env data) as [t3|_].
      * destruct (long_enough t3) eqn:E3; [eauto|].
        destruct (long_enough (decode_latin1 data)) eqn:E4; eauto.
      * destruct (long_enough (decode_latin1 data)) eqn:E4; eauto.
    + destruct (decode_utf8_ignore env data) as [t3|_].
      * destruct (long_enough t3) eqn:E3; [eauto|].
        destruct (long_enough (decode_latin1 data)) eqn:E4; eauto.
      * destruct (long_enough (decode_latin1 data)) eqn:E4; eauto.
  - destruct (pdfminer_extract_text env data) as [t2|_].
    + destruct (has_content t2) eqn:E2; [eauto|].
      destruct (decode_utf8_ignore env data) as [t3|_].
      * destruct (long_enough t3) eqn:E3; [eauto|].
        destruct (long_enough (decode_latin1 data)) eqn:E4; eauto.
      * destruct (long_enough (decode_latin1 data)) eqn:E4; eauto.
    + destruct (decode_utf8_ignore env data) as [t3|_].
      * destruct (long_enough t3) eqn:E3; [eauto|].
        destruct (long_enough (decode_latin1 data)) eqn:E4; eauto.
      * destruct (long_enough (decode_latin1 data)) eqn:E4; eauto.
Qed.

(** The document decoder treats a file as a PDF exactly when its name ends
    in [.pdf] in any letter case; every other file is decoded as UTF-8
    text, and as Latin-1 text when that decoding raises. *)
Theorem read_file_bytes_to_text_dispatch (env : library) (name : str) (data : bytes) :
  (has_extension ".pdf" name ->
   read_file_bytes_to_text env name data = read_pdf env data)
  /\ (~ has_extension ".pdf" name ->
      read_file_bytes_to_text env name data
      = Ok (match decode_utf8_ignore env data with
            | Ok text => text
            | Raise _ => decode_latin1 data
            end)).
Proof.
  unfold read_file_bytes_to_text. split; intros H.
  - apply has_extension_endswith in H. now rewrite H.
  - destruct (endswith ".pdf" (lower name)) eqn:E.
    + apply has_extension_endswith in E. contradiction.
    + now destruct (decode_utf8_ignore env data).
Qed.

Lemma read_file_bytes_to_text_ok (env : library) (name : str) (data : bytes) :
  exists text, read_file_bytes_to_text env name data = Ok text.
Proof.
  unfold read_file_bytes_to_text.
  destruct (endswith ".pdf" (lower name)).
  - rewrite read_pdf_chain. eauto.
  - destruct (decode_utf8_ignore env data); simpl; eauto.
Qed.

(** ** Lengths *)

Lemma length_lstrip_le (s : str) : length (lstrip s) <= length s.
Proof.
  induction s as [|c s IH]; [reflexivity|].
  cbn [lstrip]. destruct (is_space c); simpl in *; lia.
Qed.

Lemma length_rstrip_le (s : str) : length (rstrip s) <= length s.
Proof.
  induction s as [|c s IH]; [reflexivity|].
  cbn [rstrip]. destruct (rstrip s) as [|d r].
  - destruct (is_space c); simpl; lia.
  - simpl in *. lia.
Qed.

Lemma length_strip_le (s : str) : length (strip s) <= length s.
Proof.
  unfold strip. pose proof (length_rstrip_le (lstrip s)).
  pose proof (length_lstrip_le s). lia.
Qed.

Lemma re_sub_fuel_length (m : str -> option nat) (fuel : nat) (s : str) :
  length (re_sub_fuel m " " fuel s) <= length s.
Proof.
  revert s. induction fuel as [|fuel IH]; intros s; [reflexivity|].
  destruct s as [|c s]; [reflexivity|]. cbn [re_sub_fuel].
  destruct (m (c :: s)) as [k|].
  - cbn [lit list_ascii_of_string app length].
    apply le_n_S. etransitivity; [apply IH|apply length_skipn_le].
  - cbn [length]. apply le_n_S, IH.
Qed.

Lemma re_sub_length (m : str -> option nat) (s : str) :
  length (re_sub m " " s) <= length s.
Proof. apply re_sub_fuel_length. Qed.

Lemma length_join_weight (ls : list str) :
  ls <> [] -> length (join " " ls) + 1 = lines_weight ls.
Proof.
  induction ls as [|l ls IH]; [congruence|]. intros _.
  destruct ls as [|l' ls].
  - simpl. lia.
  - change (join " " (l :: l' :: ls)) with (l ++ lit " " ++ join " " (l' :: ls)).
    change (lines_weight (l :: l' :: ls)) with (S (length l) + lines_weight (l' :: ls)).
    rewrite <- IH by discriminate. rewrite !length_app.
    change (length (lit " ")) with 1. lia.
Qed.

Lemma lines_weight_kept (ls : list str) :
  lines_weight (filter keep_line (map strip ls)) <= lines_weight ls.
Proof.
  induction ls as [|l ls IH]; [reflexivity|].
  cbn [map filter]. pose proof (length_strip_le l).
  destruct (keep_line (strip l)); cbn [lines_weight]; lia.
Qed.

Lemma lines_weight_splitlines_from (n : nat) (s cur : str) :
  length s <= n ->
  lines_weight (splitlines_from cur s) <= length cur + length s + 1.
Proof.
  revert s cur. induction n as [|n IH]; intros s cur Hn.
  - destruct s; [|simpl in Hn; lia]. cbn [splitlines_from].
    destruct cur; cbn [lines_weight]; [lia|]. rewrite length_rev. simpl. lia.
  - destruct s as [|c s]; cbn [splitlines_from].
    + destruct cur; cbn [lines_weight]; [lia|]. rewrite length_rev. simpl. lia.
    + cbn [length] in Hn |- *. destruct (is_linebreak c).
      * destruct s as [|c' s'].
        -- cbn [lines_weight]. rewrite length_rev.
           pose proof (IH [] [] ltac:(simpl; lia)). cbn [length] in *. lia.
        -- destruct (ascii_eqb c CR && ascii_eqb c' LF);
             cbn [lines_weight]; rewrite length_rev.
           ++ pose proof (IH s' [] ltac:(cbn [length] in *; lia)). cbn [length] in *. lia.
           ++ pose proof (IH (c' :: s') [] ltac:(cbn [length] in *; lia)).
              cbn [length] in *. lia.
      * pose proof (IH s (c :: cur) ltac:(lia)). cbn [length] in *. lia.
Qed.

(** ** Decimal numerals and file names *)

Lemma uint_digits (d : Decimal.uint) :
  Forall (fun c => is_digit c = true) (lit (NilEmpty.string_of_uint d)).
Proof. induction d; simpl; constructor; (reflexivity || assumption). Qed.

Lemma decimal_digits (n : nat) : Forall (fun c => is_digit c = true) (decimal n).
Proof. apply uint_digits. Qed.

Lemma decimal_nonempty (n : nat) : decimal n <> [].
Proof.
  unfold decimal. destruct (Nat.to_uint n) eqn:E; try discriminate.
  exfalso. pose proof (Unsigned.of_to n) as H. rewrite E in H.
  simpl in H. subst n. discriminate E.
Qed.

Lemma decimal_inj (n m : nat) : decimal n = decimal m -> n = m.
Proof.
  unfold decimal, lit. intros H.
  apply Unsigned.to_uint_inj.
  assert (Hs : NilEmpty.string_of_uint (Nat.to_uint n)
               = NilEmpty.string_of_uint (Nat.to_uint m)).
  { rewrite <- (string_of_list_ascii_of_string (NilEmpty.string_of_uint (Nat.to_uint n))).
    rewrite H. apply string_of_list_ascii_of_string. }
  pose proof (NilEmpty.usu (Nat.to_uint n)) as H1.
  pose proof (NilEmpty.usu (Nat.to_uint m)) as H2.
  rewrite Hs in H1. congruence.
Qed.

Lemma digit_not_letter (c : ascii) :
  is_digit c = true ->
  ascii_eqb "f" (lower_char c) = false /\ ascii_eqb "t" (lower_char c) = false.
Proof.
  destruct c as [[|] [|] [|] [|] [|] [|] [|] [|]]; vm_compute;
    intros H; try discriminate H; split; reflexivity.
Qed.

Lemma endswith_last (p s : str) (x c : ascii) :
  ascii_eqb x c = false -> endswith (p ++ [x]) (s ++ [c]) = false.
Proof.
  intros H. unfold endswith. rewrite !rev_app_distr. simpl. now rewrite H.
Qed.

(** A name that ends in a decimal numeral is not a supported file name. *)
Lemma numbered_name_unsupported (p : str) (n : nat) :
  supported_name (p ++ decimal n) = false.
Proof.
  destruct (exists_last (decimal_nonempty n)) as (s & c & E).
  pose proof (decimal_digits n) as Hd. rewrite E in Hd |- *.
  apply Forall_app in Hd as [_ Hc]. inversion Hc as [|? ? Hdig _]; subst.
  destruct (digit_not_letter c Hdig) as [Hf Ht].
  unfold supported_name, lower. rewrite app_assoc, map_app. simpl map.
  change (lit ".pdf") with (lit ".pd" ++ ["f"%char]).
  change (lit ".txt") with (lit ".tx" ++ ["t"%char]).
  now rewrite !endswith_last.
Qed.

Lemma upload_name_supported (i : nat) (f : upload_file) :
  supported_name (upload_name i f) = named_and_supported f.
Proof.
  unfold upload_name, named_and_supported.
  destruct (filename f) as [[|c n]|]; try reflexivity;
    apply numbered_name_unsupported.
Qed.

(** ** The cleaner: shape, blank texts, length and fixed points *)


Lemma splitlines_from_Forall (P : ascii -> Prop) (n : nat) (s cur : str) :
  length s <= n -> Forall P s -> Forall P cur ->
  Forall (Forall P) (splitlines_from cur s).
Proof.
  revert s cur. induction n as [|n IH]; intros s cur Hn Hs Hcur.
  - destruct s; [|simpl in Hn; lia]. simpl.
    destruct cur; [constructor|]. repeat constructor. now apply Forall_rev.
  - destruct s as [|c s]; simpl.
    + destruct cur; [constructor|]. repeat constructor. now apply Forall_rev.
    + simpl in Hn. inversion Hs as [|? ? Hc Hs']; subst.
      destruct (is_linebreak c) eqn:Ec.
      * assert (Hrev : Forall P (rev cur)) by now apply Forall_rev.
        destruct s as [|c' s'].
        -- constructor; [assumption|]. apply IH; [simpl; lia|constructor|constructor].
        -- inversion Hs' as [|? ? Hc' Hs'']; subst.
           destruct (ascii_eqb c CR && ascii_eqb c' LF);
             (constructor; [assumption|]); apply IH; simpl in *; try lia;
             try assumption; constructor.
      * apply IH; [lia|assumption|]. now constructor.
Qed.

Lemma blank_not_html (s : str) : blank s -> looks_like_html s = false.
Proof.
  intros H.
  assert (Hlt : ~ In "<"%char (lower s)).
  { intros Hin. apply in_map_iff in Hin as (c & Hc & Hin).
    apply lower_char_lt in Hc. subst c.
    unfold blank in H. rewrite Forall_forall in H. apply H in Hin. discriminate Hin. }
  unfold looks_like_html.
  destruct (contains "<html" (lower s)) eqn:E1;
    [apply contains_cons_In in E1; contradiction|].
  destruct (contains "<div" (lower s)) eqn:E2;
    [apply contains_cons_In in E2; contradiction|].
  destruct (contains "<br" (lower s)) eqn:E3;
    [apply contains_cons_In in E3; contradiction|].
  reflexivity.
Qed.

Lemma clean_plain_blank (t : str) : blank t -> clean_plain t = [].
Proof.
  intros H. unfold clean_plain.
  assert (Hl : Forall blank (splitlines t)).
  { apply (splitlines_from_Forall _ (length t)); [lia|exact H|constructor]. }
  replace (filter keep_line (map strip (splitlines t))) with (@nil str);
    [reflexivity|].
  induction Hl as [|l ls Hb _ IH]; [reflexivity|].
  simpl. now rewrite (blank_strip_nil l Hb).
Qed.

Lemma blank_cleans_to_empty (env : library) (t : str) :
  strip t = [] -> clean_email_text env t = Ok [].
Proof.
  intros H. apply strip_nil_blank in H.
  rewrite (clean_email_text_plain_text env t (blank_not_html t H)).
  now rewrite clean_plain_blank.
Qed.

(** A text that is empty or all white space cleans to the empty text,
    whatever the markup stripper does: it is not consulted. *)
Theorem clean_email_text_blank (env : library) (t : str) :
  blank t -> clean_email_text env t = Ok [].
Proof. intros H. now apply blank_cleans_to_empty, blank_strip_nil. Qed.

Lemma clean_email_text_blank_witness :
  clean_email_text broken (lit "  " ++ [CR; LF] ++ lit " ") = Ok [].
Proof.
  apply (clean_email_text_blank broken). repeat constructor.
Defined.

Lemma clean_plain_length (raw : str) : length (clean_plain raw) <= length raw.
Proof.
  unfold clean_plain.
  pose proof (lines_weight_kept (splitlines raw)) as Hk.
  pose proof (lines_weight_splitlines_from (length raw) raw [] (le_n _)) as Hs.
  fold (splitlines raw) in Hs.
  destruct (filter keep_line (map strip (splitlines raw))) as [|l ls] eqn:El;
    [simpl; lia|].
  pose proof (length_join_weight (l :: ls) ltac:(discriminate)) as Hj.
  set (text := join " " (l :: ls)) in *.
  destruct (length _ <? 10); [simpl; lia|].
  pose proof (length_strip_le
                (re_sub spaces_match " " (re_sub noise_match " " (re_sub url_match " " text)))).
  pose proof (re_sub_length spaces_match (re_sub noise_match " " (re_sub url_match " " text))).
  pose proof (re_sub_length noise_match (re_sub url_match " " text)).
  pose proof (re_sub_length url_match text).
  simpl in Hs. lia.
Qed.

(** The cleaner never makes a text longer: a cleaned text has at most as
    many characters as the text the cleaner worked on, which is the raw
    text, or what the markup stripper made of it when the raw text holds
    markup. *)
Theorem clean_email_text_no_longer (env : library) (raw y : str) :
  clean_email_text env raw = Ok y ->
  exists r, without_markup env raw = Ok r /\ length y <= length r.
Proof.
  rewrite clean_email_text_plain.
  destruct (without_markup env raw) as [r|e]; [|discriminate].
  cbn [bind]. intros [= <-]. exists r. split; [reflexivity|apply clean_plain_length].
Qed.

Lemma clean_email_text_no_longer_witness :
  exists r, without_markup offline noisy_question = Ok r
            /\ length (lit "Poderiam informar o status do chamado 12345? 3") <= length r.
Proof.
  apply (clean_email_text_no_longer offline noisy_question). vm_compute. reflexivity.
Defined.

Lemma header_line_cleans_to_empty (env : library) (y : str) :
  cleaned y -> header_line y -> clean_email_text env y = Ok [].
Proof.
  intros Hy Hh. apply header_match_header_line in Hh.
  rewrite (clean_email_text_plain_text env y (cleaned_not_html y Hy)). f_equal.
  unfold clean_plain. destruct y as [|c y'] eqn:Ey; [reflexivity|].
  rewrite <- Ey in *.
  rewrite splitlines_one_line; [|apply (cleaned_one_line y Hy)|congruence].
  cbn [map]. rewrite (cleaned_stripped y Hy). cbn [filter].
  unfold keep_line. rewrite Hh. rewrite Ey. reflexivity.
Qed.

(** Among the strings of this development, whose characters are Latin-1,
    the texts the cleaner returns unchanged are the empty text and the
    texts of at least 10 characters that are on one line, stripped,
    single-spaced, made of allowed characters only, and not a header
    line. *)
Theorem clean_email_text_fixed_points (env : library) (y : str) :
  clean_email_text env y = Ok y
  <-> y = [] \/ (cleaned y /\ 10 <= length y /\ ~ header_line y).
Proof.
  split.
  - intros H. destruct (clean_email_text_shape env y y H) as [E|[Hc Hlen]].
    + now left.
    + right. split; [exact Hc|]. split; [exact Hlen|].
      intros Hh. rewrite (header_line_cleans_to_empty env y Hc Hh) in H.
      injection H as <-. simpl in Hlen. lia.
  - intros [->|(Hc & Hlen & Hh)]; [reflexivity|].
    apply clean_email_text_fixed; [exact Hc|exact Hlen|].
    destruct (header_match y) eqn:E; [|reflexivity].
    apply header_match_header_line in E. contradiction.
Qed.

(** ** The files loop *)

Lemma file_items_fold (env : library) (l : list (nat * upload_file))
      (acc : list batch_item * list event) :
  fold_left
    (fun acc '(i, f) =>
       let '(items, reads) := file_item env i f in
       (fst acc ++ items, snd acc ++ reads))
    l acc
  = (fst acc ++ flat_map (fun p => fst (file_item env (fst p) (snd p))) l,
     snd acc ++ flat_map (fun p => snd (file_item env (fst p) (snd p))) l).
Proof.
  revert acc. induction l as [|[i f] l IH]; intros [items reads].
  - simpl. now rewrite !app_nil_r.
  - simpl fold_left. rewrite IH. simpl.
    destruct (file_item env i f) as [items' reads']. simpl.
    now rewrite <- !app_assoc.
Qed.

Lemma file_items_flat (env : library) (files : list upload_file) :
  file_items env files
  = (flat_map (fun p => fst (file_item env (fst p) (snd p))) (enumerate files),
     flat_map (fun p => snd (file_item env (fst p) (snd p))) (enumerate files)).
Proof. unfold file_items. now rewrite file_items_fold. Qed.

Lemma file_item_reads (env : library) (i : nat) (f : upload_file) :
  snd (file_item env i f)
  = if supported_name (upload_name i f) then [FileRead (filename f)] else [].
Proof.
  unfold file_item, upload_name.
  destruct (supported_name _); [|reflexivity]. cbn [negb].
  destruct (file_bytes f); [reflexivity|].
  destruct (read_file_bytes_to_text env _ _) as [content|]; [|reflexivity].
  destruct (is_empty content); [reflexivity|].
  destruct (clean_email_text env content) as [cleaned_content|]; [|reflexivity].
  now destruct (is_empty cleaned_content).
Qed.

Lemma flat_map_enumerate_filter {A B : Type} (g : A -> bool) (h : A -> B)
      (F : nat * A -> list B) (l : list A) (start : nat) :
  (forall i x, F (i, x) = if g x then [h x] else []) ->
  flat_map F (combine (seq start (length l)) l) = map h (filter g l).
Proof.
  intros HF. revert start. induction l as [|x l IH]; intros start; [reflexivity|].
  simpl. rewrite HF, IH. now destruct (g x).
Qed.

Lemma file_reads_filter (env : library) (files : list upload_file) :
  file_reads env (Some files)
  = map (fun f => FileRead (filename f)) (filter named_and_supported files).
Proof.
  unfold file_reads, file_phase. rewrite file_items_flat. cbn [snd]. unfold enumerate.
  apply flat_map_enumerate_filter. intros i f. cbn [fst snd].
  now rewrite file_item_reads, upload_name_supported.
Qed.

(** The batch reads exactly the uploads that have a name ending in [.pdf]
    or [.txt], each once and in their order, whatever the libraries do; an
    upload with no name or with another extension is never read. *)
Theorem file_reads_named_supported (env : library) (files : list upload_file) :
  file_reads env (Some files)
  = map (fun f => FileRead (filename f)) (filter named_and_supported files).
Proof. apply file_reads_filter. Qed.

Lemma file_item_unfold (env : library) (i : nat) (f : upload_file) :
  file_item env i f
  = if negb (supported_name (upload_name i f)) then ([], [])
    else
      match file_bytes f with
      | [] => ([], [FileRead (filename f)])
      | _ =>
          match read_file_bytes_to_text env (upload_name i f) (file_bytes f) with
          | Raise _ => ([], [FileRead (filename f)])
          | Ok content =>
              if is_empty content then ([], [FileRead (filename f)])
              else
                match clean_email_text env content with
                | Raise _ => ([], [FileRead (filename f)])
                | Ok cleaned_content =>
                    if is_empty cleaned_content then ([], [FileRead (filename f)])
                    else ([{| item_id := upload_name i f;
                              item_content := cleaned_content |}],
                          [FileRead (filename f)])
                end
          end
      end.
Proof. reflexivity. Qed.

Lemma file_item_item (env : library) (i : nat) (f : upload_file) (item : batch_item) :
  In item (fst (file_item env i f)) ->
  named_and_supported f = true
  /\ filename f = Some (item_id item)
  /\ file_bytes f <> []
  /\ exists content,
       read_file_bytes_to_text env (item_id item) (file_bytes f) = Ok content
       /\ content <> []
       /\ clean_email_text env content = Ok (item_content item)
       /\ item_content item <> [].
Proof.
  rewrite <- (upload_name_supported i f), file_item_unfold.
  destruct (supported_name (upload_name i f)) eqn:Es; cbn [negb fst];
    [|intros []].
  destruct (file_bytes f) as [|b data] eqn:Eb; cbn [fst]; [intros []|].
  rewrite <- Eb.
  destruct (read_file_bytes_to_text env (upload_name i f) (file_bytes f))
    as [content|] eqn:Er; cbn [fst]; [|intros []].
  destruct (is_empty content) eqn:Ec; cbn [fst]; [intros []|].
  destruct (clean_email_text env content) as [cleaned_content|] eqn:Ecl; cbn [fst];
    [|intros []].
  destruct (is_empty cleaned_content) eqn:Ecc; cbn [fst]; [intros []|].
  intros [<-|[]]. cbn [item_id item_content].
  assert (Hn : filename f = Some (upload_name i f)).
  { unfold upload_name in Es |- *. destruct (filename f) as [[|c n]|]; try reflexivity;
      now rewrite numbered_name_unsupported in Es. }
  split; [reflexivity|]. split; [exact Hn|].
  split; [rewrite Eb; discriminate|].
  exists content. split; [exact Er|]. split; [intros ->; discriminate Ec|].
  split; [exact Ecl|]. intros E. rewrite E in Ecc. discriminate Ecc.
Qed.

Lemma in_file_items (env : library) (files : list upload_file) (item : batch_item) :
  In item (fst (file_items env files)) ->
  10 <= length (item_content item)
  /\ cleaned (item_content item)
  /\ exists f,
       In f files /\ filename f = Some (item_id item)
       /\ supported_name (item_id item) = true /\ file_bytes f <> []
       /\ exists content,
            read_file_bytes_to_text env (item_id item) (file_bytes f) = Ok content
            /\ clean_email_text env content = Ok (item_content item).
Proof.
  rewrite file_items_flat. cbn [fst]. intros H.
  apply in_flat_map in H as ([i f] & Hin & H). cbn [fst snd] in H.
  destruct (file_item_item env i f item H)
    as (Hs & Hn & Hb & content & Hr & _ & Hc & Hne).
  destruct (clean_email_text_shape env content _ Hc) as [E|[Hcl Hlen]]; [congruence|].
  split; [exact Hlen|]. split; [exact Hcl|].
  exists f. split; [exact (in_combine_r _ _ _ _ Hin)|].
  split; [exact Hn|]. split.
  - unfold named_and_supported in Hs. rewrite Hn in Hs.
    destruct (item_id item); [discriminate Hs|exact Hs].
  - split; [exact Hb|]. exists content. now split.
Qed.

(** Every item the batch makes of an upload has a cleaned content of at
    least 10 characters (never an empty one), and comes from an upload that
    is not empty and whose name, which ends in [.pdf] or [.txt], is the
    item's id. *)
Theorem file_items_content (env : library) (files : list upload_file) (item : batch_item) :
  In item (fst (file_items env files)) ->
  10 <= length (item_content item)
  /\ cleaned (item_content item)
  /\ exists f,
       In f files /\ filename f = Some (item_id item)
       /\ supported_name (item_id item) = true /\ file_bytes f <> []
       /\ exists content,
            read_file_bytes_to_text env (item_id item) (file_bytes f) = Ok content
            /\ clean_email_text env content = Ok (item_content item).
Proof. apply in_file_items. Qed.

Lemma file_items_content_witness : 10 <= length (item_content note_item).
Proof.
  refine (proj1 (file_items_content offline [note_file] note_item _)).
  vm_compute. left. reflexivity.
Defined.

(** ** Uploads are processed independently *)

Lemma file_item_index (env : library) (i : nat) (f : upload_file) :
  file_item env i f = file_item env 0 f.
Proof.
  rewrite !file_item_unfold, !upload_name_supported.
  destruct (named_and_supported f) eqn:E; [|reflexivity].
  unfold named_and_supported in E. unfold upload_name.
  destruct (filename f) as [[|c n]|]; try discriminate E. reflexivity.
Qed.

Lemma flat_map_enumerate_index {A B : Type} (G : nat -> A -> list B)
      (l : list A) (start : nat) :
  (forall i x, G i x = G 0 x) ->
  flat_map (fun p => G (fst p) (snd p)) (combine (seq start (length l)) l)
  = flat_map (G 0) l.
Proof.
  intros HG. revert start. induction l as [|x l IH]; intros start; [reflexivity|].
  simpl. now rewrite HG, IH.
Qed.

(** The items and the reads of a list of uploads are those of each upload
    taken alone, put one after the other: an upload that is skipped, that
    cannot be read or that has no content takes nothing from the others,
    and the place of an upload in the list does not matter. *)
Theorem file_items_independent (env : library) (files : list upload_file) :
  file_items env files
  = (flat_map (fun f => fst (file_items env [f])) files,
     flat_map (fun f => snd (file_items env [f])) files).
Proof.
  assert (H1 : forall f, file_items env [f] = file_item env 0 f).
  { intros f. rewrite file_items_flat. unfold enumerate. cbn [length seq combine flat_map fst snd].
    rewrite !app_nil_r. now destruct (file_item env 0 f). }
  rewrite file_items_flat. unfold enumerate. f_equal.
  - rewrite (flat_map_enumerate_index (fun i f => fst (file_item env i f)))
      by (intros i f; now rewrite file_item_index).
    apply flat_map_ext. intros f. now rewrite H1.
  - rewrite (flat_map_enumerate_index (fun i f => snd (file_item env i f)))
      by (intros i f; now rewrite file_item_index).
    apply flat_map_ext. intros f. now rewrite H1.
Qed.

(** ** Loops that can stop *)

Lemma for_each_in {A B : Type} (body : A -> result (list B)) (l : list A)
      (items : list B) :
  for_each body l = Ok items ->
  forall y, In y items <-> exists x ys, In x l /\ body x = Ok ys /\ In y ys.
Proof.
  revert items. induction l as [|x l IH]; intros items H y.
  - injection H as <-. split; [intros []|]. intros (x & ys & [] & _).
  - cbn [for_each] in H. destruct (body x) as [ys0|] eqn:Ex; [|discriminate H].
    cbn [bind] in H. destruct (for_each body l) as [zs|]; [|discriminate H].
    cbn [bind] in H. injection H as <-. rewrite in_app_iff, (IH zs eq_refl y). split.
    + intros [Hy|(x' & ys & Hin & Hb & Hy)].
      * exists x, ys0. repeat split; [now left|assumption|assumption].
      * exists x', ys. repeat split; [now right|assumption|assumption].
    + intros (x' & ys & [<-|Hin] & Hb & Hy).
      * left. congruence.
      * right. now exists x', ys.
Qed.

Lemma for_each_raise {A B : Type} (body : A -> result (list B)) (l : list A) (e : exn) :
  for_each body l = Raise e -> exists x, In x l /\ body x = Raise e.
Proof.
  induction l as [|x l IH]; [discriminate|].
  cbn [for_each]. destruct (body x) as [ys0|e0] eqn:Ex.
  - cbn [bind]. destruct (for_each body l) as [zs|e1]; [discriminate|].
    cbn [bind]. intros [= ->]. destruct (IH eq_refl) as (x' & Hin & Hb).
    exists x'. split; [now right|assumption].
  - cbn [bind]. intros [= ->]. exists x. split; [now left|assumption].
Qed.

Lemma for_each_raises {A B : Type} (body : A -> result (list B)) (l : list A)
      (x : A) (e : exn) :
  In x l -> body x = Raise e -> exists e', for_each body l = Raise e'.
Proof.
  induction l as [|x0 l IH]; [intros []|].
  intros [->|Hin] Hb; cbn [for_each].
  - rewrite Hb. cbn [bind]. eauto.
  - destruct (body x0) as [ys0|e0]; cbn [bind]; [|eauto].
    destruct (IH Hin Hb) as [e' ->]. cbn [bind]. eauto.
Qed.

(** ** The texts loop *)

Lemma text_items_flat (env : library) (arr : list json) :
  text_items env arr = for_each (text_item env) (enumerate arr).
Proof.
  unfold text_items. generalize (enumerate arr). intros l.
  induction l as [|[i t] l IH]; [reflexivity|].
  cbn [for_each]. rewrite IH. reflexivity.
Qed.

Lemma in_combine_seq {A : Type} (l : list A) (start i : nat) (x : A) :
  In (i, x) (combine (seq start (length l)) l)
  <-> start <= i /\ nth_error l (i - start) = Some x.
Proof.
  revert start. induction l as [|y l IH]; intros start.
  - simpl. split; [intros []|]. intros [_ H]. now destruct (i - start).
  - simpl. rewrite IH. split.
    + intros [E|[Hle Hn]].
      * injection E as <- <-. split; [apply le_n|]. now rewrite Nat.sub_diag.
      * split; [lia|]. replace (i - start) with (S (i - S start)) by lia. exact Hn.
    + intros [Hle Hn]. destruct (Nat.eq_dec start i) as [<-|Hne].
      * left. rewrite Nat.sub_diag in Hn. simpl in Hn. congruence.
      * right. split; [lia|].
        replace (i - start) with (S (i - S start)) in Hn by lia. exact Hn.
Qed.

Lemma in_enumerate {A : Type} (l : list A) (i : nat) (x : A) :
  In (i, x) (enumerate l) <-> nth_error l i = Some x.
Proof.
  unfold enumerate. rewrite in_combine_seq, Nat.sub_0_r.
  split; [tauto|]. intros H. split; [apply Nat.le_0_l|exact H].
Qed.

Lemma text_item_ok (env : library) (p : nat * json) (ys : list batch_item) :
  text_item env p = Ok ys ->
  forall item,
    In item ys
    <-> exists s, snd p = JStr s /\ strip s <> []
                  /\ clean_email_text env s = Ok (item_content item)
                  /\ item_id item = lit "text-" ++ decimal (fst p).
Proof.
  unfold text_item. intros H item.
  destruct (snd p) as [| | | |s| |];
    try (injection H as <-; split; [intros []|intros (s' & Hs & _); discriminate Hs]).
  destruct (strip s) as [|d r] eqn:E; cbn [is_empty] in H.
  - injection H as <-. split; [intros []|].
    intros (s' & [= <-] & Hne & _). congruence.
  - destruct (clean_email_text env s) as [content|] eqn:Ec; [|discriminate H].
    cbn [bind] in H. injection H as <-. split.
    + intros [<-|[]]. exists s. rewrite E.
      split; [reflexivity|]. split; [discriminate|]. split; [exact Ec|reflexivity].
    + intros (s' & [= <-] & _ & Hc & Hid). left.
      destruct item as [id content']. cbn [item_id item_content] in *.
      rewrite Ec in Hc. injection Hc as <-. now rewrite Hid.
Qed.

Lemma text_item_raise (env : library) (p : nat * json) (e : exn) :
  text_item env p = Raise e
  <-> exists s, snd p = JStr s /\ strip s <> [] /\ clean_email_text env s = Raise e.
Proof.
  unfold text_item. split.
  - destruct (snd p) as [| | | |s| |]; try discriminate.
    destruct (strip s) as [|d r] eqn:E; cbn [is_empty]; [discriminate|].
    destruct (clean_email_text env s) as [content|e0] eqn:Ec; [discriminate|].
    cbn [bind]. intros [= ->]. exists s. rewrite E.
    split; [reflexivity|]. split; [discriminate|exact Ec].
  - intros (s & -> & Hne & Hc). destruct (strip s); [congruence|].
    cbn [is_empty]. now rewrite Hc.
Qed.

Lemma in_text_items (env : library) (arr : list json) (items : list batch_item) :
  text_items env arr = Ok items ->
  forall item,
    In item items
    <-> exists i s,
          nth_error arr i = Some (JStr s) /\ strip s <> []
          /\ clean_email_text env s = Ok (item_content item)
          /\ item_id item = lit "text-" ++ decimal i.
Proof.
  rewrite text_items_flat. intros H item. rewrite (for_each_in _ _ _ H item). split.
  - intros ([i t] & ys & Hin & Hb & Hy).
    apply (text_item_ok env _ _ Hb) in Hy as (s & Hs & Hne & Hc & Hid).
    cbn [fst snd] in *. subst t. apply in_enumerate in Hin. now exists i, s.
  - intros (i & s & Hn & Hne & Hc & Hid).
    destruct (text_item env (i, JStr s)) as [ys|e] eqn:Et.
    + exists (i, JStr s), ys. split; [now apply in_enumerate|]. split; [exact Et|].
      apply (text_item_ok env _ _ Et). now exists s.
    + apply text_item_raise in Et as (s' & [= <-] & _ & Hr). congruence.
Qed.

Lemma text_items_raise (env : library) (arr : list json) (e : exn) :
  text_items env arr = Raise e ->
  exists i s,
    nth_error arr i = Some (JStr s) /\ strip s <> [] /\ clean_email_text env s = Raise e.
Proof.
  rewrite text_items_flat. intros H.
  apply for_each_raise in H as ([i t] & Hin & Hb).
  apply text_item_raise in Hb as (s & Hs & Hne & Hc). cbn [snd] in Hs. subst t.
  apply in_enumerate in Hin. now exists i, s.
Qed.

Lemma text_items_raises (env : library) (arr : list json) (i : nat) (s : str) (e : exn) :
  nth_error arr i = Some (JStr s) -> strip s <> [] -> clean_email_text env s = Raise e ->
  exists e', text_items env arr = Raise e'.
Proof.
  intros Hn Hne Hc. rewrite text_items_flat.
  apply (for_each_raises _ _ (i, JStr s) e); [now apply in_enumerate|].
  apply text_item_raise. now exists s.
Qed.

(** The loop over the [texts] list.  When it ends, its items are exactly
    these: for each index [i] whose element is a string that is not blank,
    the item with the id [text-i] and the cleaned string as content;
    elements that are not strings, and blank strings, give no item.  It
    stops with an exception exactly when the cleaner raises on one of those
    strings, and the exception is one the cleaner raised. *)
Theorem text_items_spec (env : library) (arr : list json) :
  (forall items,
      text_items env arr = Ok items ->
      forall item,
        In item items
        <-> exists i s,
              nth_error arr i = Some (JStr s) /\ strip s <> []
              /\ clean_email_text env s = Ok (item_content item)
              /\ item_id item = lit "text-" ++ decimal i)
  /\ (forall e,
         text_items env arr = Raise e ->
         exists i s,
           nth_error arr i = Some (JStr s) /\ strip s <> []
           /\ clean_email_text env s = Raise e)
  /\ (forall i s e,
         nth_error arr i = Some (JStr s) -> strip s <> [] ->
         clean_email_text env s = Raise e ->
         exists e', text_items env arr = Raise e').
Proof.
  split; [apply in_text_items|]. split; [apply text_items_raise|apply text_items_raises].
Qed.

Lemma text_ids_nodup (env : library) (l : list json) (start : nat)
      (items : list batch_item) :
  for_each (text_item env) (combine (seq start (length l)) l) = Ok items ->
  NoDup (map item_id items)
  /\ forall item, In item items ->
                  exists i, start <= i /\ item_id item = lit "text-" ++ decimal i.
Proof.
  revert start items. induction l as [|t l IH]; intros start items H.
  - injection H as <-. split; [constructor|intros item []].
  - cbn [length seq combine for_each] in H.
    destruct (text_item env (start, t)) as [ys|] eqn:Et; [|discriminate H].
    cbn [bind] in H.
    destruct (for_each (text_item env) (combine (seq (S start) (length l)) l))
      as [zs|] eqn:Ez; [|discriminate H].
    cbn [bind] in H. injection H as <-.
    destruct (IH (S start) zs Ez) as [Hnd Hids].
    assert (Hys : ys = [] \/ exists content,
                 ys = [{| item_id := lit "text-" ++ decimal start;
                          item_content := content |}]).
    { unfold text_item in Et. cbn [fst snd] in Et.
      destruct t as [| | | |s| |]; try (injection Et as <-; now left).
      destruct (is_empty (strip s)); [injection Et as <-; now left|].
      destruct (clean_email_text env s) as [content|]; [|discriminate Et].
      cbn [bind] in Et. injection Et as <-. right. now exists content. }
    destruct Hys as [->|[content ->]]; cbn [app map].
    + split; [exact Hnd|]. intros item Hin.
      destruct (Hids item Hin) as (i & Hle & Hi). exists i. split; [lia|exact Hi].
    + split.
      * constructor; [|exact Hnd]. cbn [item_id].
        intros Hin. apply in_map_iff in Hin as (item & Hid & Hin).
        destruct (Hids item Hin) as (i & Hle & Hi). rewrite Hi in Hid.
        apply (app_inv_head (lit "text-")), decimal_inj in Hid. lia.
      * intros item [<-|Hin].
        -- exists start. split; [lia|reflexivity].
        -- destruct (Hids item Hin) as (i & Hle & Hi). exists i. split; [lia|exact Hi].
Qed.

(** The ids of a batch: two items made of the [texts] list never share an
    id, and no item made of the [texts] list shares its id with an item
    made of an upload.  (Two uploads of the same name do share theirs.) *)
Theorem batch_ids_distinct (env : library) (arr : list json) (files : list upload_file)
        (from_texts : list batch_item) :
  text_items env arr = Ok from_texts ->
  NoDup (map item_id from_texts)
  /\ forall a b,
       In a from_texts -> In b (fst (file_items env files)) ->
       item_id a <> item_id b.
Proof.
  intros Ht. split.
  - rewrite text_items_flat in Ht. exact (proj1 (text_ids_nodup env arr 0 _ Ht)).
  - intros a b Ha Hb E.
    apply (in_text_items env arr _ Ht) in Ha as (i & s & _ & _ & _ & Hid).
    destruct (in_file_items env files b Hb) as (_ & _ & f & _ & _ & Hs & _).
    rewrite <- E, Hid, numbered_name_unsupported in Hs. discriminate Hs.
Qed.

Lemma batch_ids_distinct_witness : NoDup [lit "text-0"; lit "text-1"].
Proof.
  exact (proj1 (batch_ids_distinct
                  offline [JStr status_question; JStr greeting] [note_file]
                  [{| item_id := lit "text-0"; item_content := status_question |};
                   {| item_id := lit "text-1"; item_content := greeting |}]
                  eq_refl)).
Defined.

(** ** The request handlers *)

Lemma analyze_file (env : library) (text : option str) (f : upload_file) :
  analyze env text (Some f)
  = if negb (supported_name (name_or_empty f))
    then (Raise (HTTPException 415 UNSUPPORTED), [FileRead (filename f)])
    else
      match read_file_bytes_to_text env (name_or_empty f) (file_bytes f) with
      | Raise e => (Raise e, [FileRead (filename f)])
      | Ok raw =>
          match clean_email_text env raw with
          | Raise e => (Raise e, [FileRead (filename f)])
          | Ok content =>
              if is_empty content
              then (Raise (HTTPException 400 EMPTY_CONTENT), [FileRead (filename f)])
              else (result <- classify_with_gemini env content ;;
                    JSONResponse env classification_floats classification_texts result,
                    [FileRead (filename f); ModelCall content])
          end
      end.
Proof.
  unfold analyze. rewrite andb_false_r.
  replace (match filename f with Some ((_ :: _) as n) => n | _ => [] end)
    with (name_or_empty f)
    by (unfold name_or_empty; now destruct (filename f) as [[|c n]|]).
  destruct (negb (supported_name (name_or_empty f))); [reflexivity|].
  destruct (read_file_bytes_to_text env (name_or_empty f) (file_bytes f)) as [raw|];
    [|reflexivity].
  destruct (clean_email_text env raw) as [content|]; [|reflexivity].
  now destruct (is_empty content).
Qed.

Lemma analyze_text (env : library) (text : option str) :
  analyze env text None
  = if negb (option_truthy text) then (Raise (HTTPException 400 SEND_SOMETHING), [])
    else
      match clean_email_text env (match text with Some t => t | None => [] end) with
      | Raise e => (Raise e, [])
      | Ok content =>
          if is_empty content then (Raise (HTTPException 400 EMPTY_CONTENT), [])
          else (result <- classify_with_gemini env content ;;
                JSONResponse env classification_floats classification_texts result,
                [ModelCall content])
      end.
Proof.
  unfold analyze. rewrite andb_true_r.
  destruct (negb (option_truthy text)); [reflexivity|].
  destruct (clean_email_text env _) as [content|]; [|reflexivity].
  now destruct (is_empty content).
Qed.

(** C10: when a file is supplied, [analyze] does not depend on the text
    field and works on the file alone: it reads the file first; the only
    content it sends to the model is the cleaned text decoded from the
    file; and whenever the file has a supported name and its cleaned text
    is not empty, it does send that text, once, and its result is the
    rendered classification of that text, whatever the text field holds. *)
Theorem analyze_ignores_text_when_file
        (env : library) (text1 text2 : option str) (file : upload_file) :
  analyze env text1 (Some file) = analyze env text2 (Some file)
  /\ (exists rest,
         snd (analyze env text1 (Some file)) = FileRead (filename file) :: rest)
  /\ (forall content,
         In (ModelCall content) (snd (analyze env text1 (Some file))) ->
         content <> []
         /\ exists raw,
              read_file_bytes_to_text env (name_or_empty file) (file_bytes file) = Ok raw
              /\ clean_email_text env raw = Ok content)
  /\ (forall raw content,
         supported_name (name_or_empty file) = true ->
         read_file_bytes_to_text env (name_or_empty file) (file_bytes file) = Ok raw ->
         clean_email_text env raw = Ok content ->
         content <> [] ->
         analyze env text1 (Some file)
         = (result <- classify_with_gemini env content ;;
            JSONResponse env classification_floats classification_texts result,
            [FileRead (filename file); ModelCall content])).
Proof.
  rewrite !analyze_file. split; [reflexivity|]. split; [|split].
  - destruct (negb (supported_name (name_or_empty file))); [now eexists|].
    destruct (read_file_bytes_to_text env _ _) as [raw|]; [|now eexists].
    destruct (clean_email_text env raw) as [content|]; [|now eexists].
    destruct (is_empty content); now eexists.
  - intros content.
    destruct (negb (supported_name (name_or_empty file)));
      [intros [H|[]]; discriminate H|].
    destruct (read_file_bytes_to_text env _ _) as [raw|];
      [|intros [H|[]]; discriminate H].
    destruct (clean_email_text env raw) as [content'|] eqn:Ec;
      [|intros [H|[]]; discriminate H].
    destruct (is_empty content') eqn:Ee; [intros [H|[]]; discriminate H|].
    intros [H|[H|[]]]; [discriminate H|]. injection H as <-.
    split; [intros ->; discriminate Ee|]. now exists raw.
  - intros raw content Hs Hr Hc Hne. rewrite Hs, Hr, Hc. cbn [negb].
    destruct content; [congruence|reflexivity].
Qed.

Lemma analyze_ignores_text_when_file_witness :
  analyze flaky (Some greeting) (Some note_file)
  = (Ok default_result,
     [FileRead (Some (lit "nota.txt")); ModelCall status_question]).
Proof.
  exact (proj2 (proj2 (proj2 (analyze_ignores_text_when_file
                                flaky (Some greeting) None note_file)))
           status_question status_question eq_refl eq_refl eq_refl
           ltac:(discriminate)).
Defined.

(** ** The batch handler *)

Lemma analyze_batch_unfold (env : library) (texts : option str)
      (files : option (list upload_file)) (arr : list json) (items : list batch_item) :
  texts_phase env texts = Ok arr ->
  discovered_items env arr files = Ok items ->
  analyze_batch env texts files
  = match items with
    | [] => (Raise (HTTPException 400 NO_ITEMS), file_reads env files)
    | _ => (JSONResponse env batch_floats batch_texts (response_of env items),
            file_reads env files ++ model_calls items)
    end.
Proof.
  unfold texts_phase, analyze_batch, discovered_items, file_reads, file_phase,
    response_of, batch_results, model_calls.
  intros -> H. destruct (text_items env arr) as [from_texts|]; [|discriminate H].
  cbn [bind] in H. injection H as <-.
  destruct files as [fs|]; [destruct (file_items env fs) as [from_files reads]|];
    cbn [fst snd]; destruct (from_texts ++ _); try reflexivity;
    now rewrite length_map.
Qed.

Lemma analyze_batch_bad_texts (env : library) (texts : option str)
      (files : option (list upload_file)) (e : exn) :
  texts_phase env texts = Raise e -> analyze_batch env texts files = (Raise e, []).
Proof. unfold texts_phase, analyze_batch. now intros ->. Qed.

Lemma analyze_batch_texts_loop_raises (env : library) (texts : option str)
      (files : option (list upload_file)) (arr : list json) (e : exn) :
  texts_phase env texts = Ok arr -> text_items env arr = Raise e ->
  analyze_batch env texts files = (Raise e, []).
Proof. unfold texts_phase, analyze_batch. now intros -> ->. Qed.

Lemma classify_item_id (env : library) (item : batch_item) :
  result_id (classify_item env item) = item_id item.
Proof.
  unfold classify_item. now destruct (classify_with_gemini env (item_content item)).
Qed.

Lemma render_batch (env : library) (response : batch_response) :
  JSONResponse env batch_floats batch_texts response
  = if forallb renderable (results response)
    then _ <- encode_body env (batch_texts response) ;; Ok response
    else Raise (Exc ValueError OUT_OF_RANGE).
Proof.
  unfold JSONResponse, batch_floats.
  replace (forallb is_finite (map (fun x => confidence (result_body x)) (results response)))
    with (forallb renderable (results response)); [reflexivity|].
  induction (results response) as [|r rs IH]; [reflexivity|].
  simpl. now rewrite IH.
Qed.

(** C8, as stated, fails: the model is down for the second of three
    e-mails, which is caught, and answers the two others with a confidence
    beyond the range of a double; all three are classified, and then the
    response cannot be rendered: the batch call raises [ValueError] and
    returns no result list. *)
Lemma analyze_batch_fails_on_infinite_confidence :
  raised (classify_with_gemini overflowing support_request)
  /\ classify_with_gemini overflowing status_question = Ok huge_result
  /\ analyze_batch overflowing (Some three_texts) None
     = (Raise (Exc ValueError OUT_OF_RANGE),
        [ModelCall status_question; ModelCall support_request; ModelCall greeting])
  /\ ~ (forall env texts files arr items,
          texts_phase env texts = Ok arr ->
          discovered_items env arr files = Ok items ->
          items <> [] ->
          exists response, fst (analyze_batch env texts files) = Ok response).
Proof.
  assert (H3 : analyze_batch overflowing (Some three_texts) None
               = (Raise (Exc ValueError OUT_OF_RANGE),
                  [ModelCall status_question; ModelCall support_request;
                   ModelCall greeting]))
    by (vm_compute; reflexivity).
  split; [exact I|]. split; [vm_compute; reflexivity|]. split; [exact H3|].
  intros Hall.
  destruct (Hall overflowing (Some three_texts) None
                 [JStr status_question; JStr support_request; JStr greeting]
                 [{| item_id := "text-0"; item_content := status_question |};
                  {| item_id := "text-1"; item_content := support_request |};
                  {| item_id := "text-2"; item_content := greeting |}])
    as [response Hr]; try (vm_compute; reflexivity); [discriminate|].
  rewrite H3 in Hr. discriminate Hr.
Qed.

(** C8 (amended): once the items of a batch are discovered and there is at
    least one, the model is called for every item, and the results are the
    items' results, one per item and in discovery order, each with its
    item's id; an item whose classification raises gets the degraded
    result (category "Improdutivo", confidence 0.0, a reply that carries
    the error's description, intent "outros"), the others get their
    classification.  The batch call returns these results exactly when the
    response can be rendered: the confidence of every result is a finite
    number, which it is whenever every classification that succeeds returns
    a finite one, and the body can be encoded.  Otherwise it raises the
    exception of the rendering, a [ValueError] for a confidence that is not
    finite. *)
Theorem analyze_batch_isolates_failures
        (env : library) (texts : option str) (files : option (list upload_file))
        (arr : list json) (items : list batch_item) :
  texts_phase env texts = Ok arr ->
  discovered_items env arr files = Ok items ->
  items <> [] ->
  analyze_batch env texts files
  = (if forallb renderable (batch_results env items)
     then _ <- encode_body env (batch_texts (response_of env items)) ;;
          Ok (response_of env items)
     else Raise (Exc ValueError OUT_OF_RANGE),
     file_reads env files ++ model_calls items)
  /\ map result_id (batch_results env items) = map item_id items
  /\ (forall item e,
         classify_with_gemini env (item_content item) = Raise e ->
         classify_item env item
         = {| result_id := item_id item;
              result_body := {| category := IMPRODUTIVO;
                                confidence := float_zero;
                                suggested_reply := ERROR_PREFIX ++ exn_str e;
                                intent := OUTROS |} |})
  /\ (forall item res,
         classify_with_gemini env (item_content item) = Ok res ->
         classify_item env item
         = {| result_id := item_id item; result_body := res |})
  /\ ((forall item res,
          In item items ->
          classify_with_gemini env (item_content item) = Ok res ->
          is_finite (confidence res) = true) ->
      encode_body env (batch_texts (response_of env items)) = Ok tt ->
      fst (analyze_batch env texts files)
      = Ok {| count := length items; results := batch_results env items |}).
Proof.
  intros Ht Hd Hne.
  assert (H1 : analyze_batch env texts files
               = (if forallb renderable (batch_results env items)
                  then _ <- encode_body env (batch_texts (response_of env items)) ;;
                       Ok (response_of env items)
                  else Raise (Exc ValueError OUT_OF_RANGE),
                  file_reads env files ++ model_calls items)).
  { rewrite (analyze_batch_unfold env texts files arr items Ht Hd).
    destruct items as [|item items']; [congruence|]. now rewrite render_batch. }
  split; [exact H1|]. split; [|split; [|split]].
  - unfold batch_results. rewrite map_map. apply map_ext, classify_item_id.
  - intros item e H. unfold classify_item. now rewrite H.
  - intros item res H. unfold classify_item. now rewrite H.
  - intros Hfin Henc. rewrite H1, Henc. cbn [fst bind].
    replace (forallb renderable (batch_results env items)) with true; [reflexivity|].
    symmetry. apply forallb_forall. intros r Hr.
    apply in_map_iff in Hr as (item & <- & Hin). unfold renderable, classify_item.
    destruct (classify_with_gemini env (item_content item)) as [res|e] eqn:E.
    + exact (Hfin item res Hin E).
    + reflexivity.
Qed.

Lemma analyze_batch_isolates_failures_witness :
  analyze_batch flaky (Some three_texts) None
  = (Ok {| count := 3;
           results :=
             [{| result_id := "text-0"; result_body := default_result |};
              degraded "text-1" (Exc LibraryError "unavailable");
              {| result_id := "text-2"; result_body := default_result |}] |},
     [ModelCall status_question; ModelCall support_request; ModelCall greeting]).
Proof.
  refine (proj1 (analyze_batch_isolates_failures flaky (Some three_texts) None
                   [JStr status_question; JStr support_request; JStr greeting]
                   [{| item_id := "text-0"; item_content := status_question |};
                    {| item_id := "text-1"; item_content := support_request |};
                    {| item_id := "text-2"; item_content := greeting |}] _ _ _)).
  - vm_compute. reflexivity.
  - vm_compute. reflexivity.
  - discriminate.
Defined.

(** C9, as stated, fails: an empty [texts] field is present and is not
    valid JSON, and the batch skips it, reads the files and classifies
    them. *)
Lemma analyze_batch_skips_empty_texts :
  raised (json_loads offline [])
  /\ (exists response,
         analyze_batch offline (Some []) (Some [note_file])
         = (Ok response,
            [FileRead (Some (lit "nota.txt")); ModelCall status_question]))
  /\ ~ (forall env texts files,
          raised (json_loads env texts) ->
          exists detail,
            analyze_batch env (Some texts) files
            = (Raise (HTTPException 400 detail), [])).
Proof.
  assert (H1 : raised (json_loads offline [])) by exact I.
  assert (H2 : exists response,
             analyze_batch offline (Some []) (Some [note_file])
             = (Ok response,
                [FileRead (Some (lit "nota.txt")); ModelCall status_question]))
    by (eexists; vm_compute; reflexivity).
  split; [exact H1|]. split; [exact H2|].
  intros Hall. destruct (Hall offline [] (Some [note_file]) H1) as [detail Hd].
  destruct H2 as [response H2].
  pose proof (eq_trans (eq_sym H2) Hd) as Hx. discriminate Hx.
Qed.

(** C9 (amended): if the [texts] field is present and not empty, and it is
    not valid JSON or does not parse to a list, the batch fails with the
    status 400 before any file is read: it has no effect and no result. *)
Theorem analyze_batch_rejects_bad_texts
        (env : library) (texts : str) (files : option (list upload_file)) :
  texts <> [] ->
  (raised (json_loads env texts)
   \/ exists v, json_loads env texts = Ok v /\ forall elems, v <> JArr elems) ->
  exists detail,
    analyze_batch env (Some texts) files = (Raise (HTTPException 400 detail), []).
Proof.
  intros Hne H. unfold analyze_batch.
  destruct texts as [|c texts]; [congruence|]. cbn [option_truthy].
  unfold parse_texts, try_except.
  destruct H as [H|(v & Hv & Hl)].
  - destruct (json_loads env (c :: texts)); [destruct H|]. simpl. eauto.
  - rewrite Hv. simpl. destruct v; eauto. now destruct (Hl elems).
Qed.

Lemma analyze_batch_rejects_bad_texts_witness :
  exists detail,
    analyze_batch offline (Some (lit "isto nao e JSON")) (Some [note_file])
    = (Raise (HTTPException 400 detail), []).
Proof.
  apply (analyze_batch_rejects_bad_texts offline (lit "isto nao e JSON")).
  - discriminate.
  - left. exact I.
Defined.

(** C2, on the code: the text ["oi"] is not white space and its cleaned
    form is empty; the loop over the texts appends it with the empty
    content, and the batch sends that empty content to the model, whereas
    the loop over the files drops a file with the same content. *)
Theorem text_items_keeps_empty_content :
  (forall env, clean_email_text env (lit "oi") = Ok [])
  /\ (forall env, text_items env [JStr (lit "oi")]
                  = Ok [{| item_id := lit "text-0"; item_content := [] |}])
  /\ snd (analyze_batch short_batch (Some short_texts) None) = [ModelCall []]
  /\ (forall env, decode_utf8_ignore env (encode (lit "oi")) = Ok (lit "oi") ->
                  fst (file_item env 0 {| filename := Some (lit "oi.txt");
                                          file_bytes := encode (lit "oi") |}) = []).
Proof.
  split; [|split; [|split]].
  - intros env. reflexivity.
  - intros env. reflexivity.
  - vm_compute. reflexivity.
  - intros env H. unfold file_item. cbn [filename file_bytes].
    replace (supported_name (lit "oi.txt")) with true by (vm_compute; reflexivity).
    cbn [negb]. unfold read_file_bytes_to_text.
    replace (endswith ".pdf" (lower (lit "oi.txt"))) with false by (vm_compute; reflexivity).
    rewrite H. reflexivity.
Qed.

(** ** Outcomes of the handlers *)

Lemma file_reads_only_reads (env : library) (files : option (list upload_file)) :
  Forall (fun ev => is_model_call ev = false) (file_reads env files).
Proof.
  destruct files as [fs|]; [|constructor].
  rewrite file_reads_filter. apply Forall_forall. intros ev H.
  apply in_map_iff in H as (f & <- & _). reflexivity.
Qed.

Lemma filter_model_calls (reads : list event) (items : list batch_item) :
  Forall (fun ev => is_model_call ev = false) reads ->
  filter is_model_call (reads ++ model_calls items) = model_calls items.
Proof.
  intros H. unfold model_calls. rewrite filter_app.
  replace (filter is_model_call reads) with (@nil event).
  - simpl. induction items as [|item items IH]; [reflexivity|]. simpl. now rewrite IH.
  - induction H as [|ev reads Hev _ IH]; [reflexivity|]. simpl. now rewrite Hev.
Qed.

Lemma classify_item_valid (env : library) (item : batch_item) :
  valid_classification (result_body (classify_item env item)).
Proof.
  unfold classify_item.
  destruct (classify_with_gemini env (item_content item)) as [res|e] eqn:E.
  - destruct (classify_with_gemini_payload env _ res E) as [items Hi].
    exact (proj1 (classification_of_valid env items res Hi)).
  - repeat split; simpl.
    + now right.
    + vm_compute. tauto.
    + discriminate.
Qed.

Lemma texts_phase_raise (env : library) (texts : option str) (e : exn) :
  texts_phase env texts = Raise e -> exists detail, e = HTTPException 400 detail.
Proof.
  unfold texts_phase, parse_texts, try_except.
  destruct (option_truthy texts); [|discriminate].
  destruct (json_loads env _) as [v|e']; simpl.
  - destruct v; intros H; try discriminate H; injection H as <-; eauto.
  - intros H. injection H as <-. eauto.
Qed.

Lemma forallb_false_exists {A : Type} (f : A -> bool) (l : list A) :
  forallb f l = false -> exists x, In x l /\ f x = false.
Proof.
  induction l as [|x l IH]; [discriminate|].
  simpl. destruct (f x) eqn:E.
  - intros H. destruct (IH H) as (y & Hy & Hf). exists y. split; [now right|exact Hf].
  - intros _. exists x. split; [now left|exact E].
Qed.

(** What a batch call can do.  It fails in four ways only: with the
    status 400, without having called the model; with an exception the
    cleaner raised on a string of the [texts] list, without any effect; or,
    after the calls to the model, with the [ValueError] of the rendering,
    when a classification returned a confidence that is not finite, or with
    an exception of the encoding of the body.  Otherwise its response is
    not empty, its count is the number of its results, the model was called
    exactly once per result, and every result, degraded ones included, has
    a valid category, a canonical intent, a reply that is not empty and a
    finite confidence. *)
Theorem analyze_batch_outcomes (env : library) (texts : option str)
        (files : option (list upload_file)) :
  match analyze_batch env texts files with
  | (Raise e, effects) =>
      ((exists detail, e = HTTPException 400 detail)
       /\ Forall (fun ev => is_model_call ev = false) effects)
      \/ (effects = []
          /\ exists arr i s,
               texts_phase env texts = Ok arr
               /\ nth_error arr i = Some (JStr s) /\ strip s <> []
               /\ clean_email_text env s = Raise e)
      \/ (e = Exc ValueError OUT_OF_RANGE
          /\ exists content res,
               In (ModelCall content) effects
               /\ classify_with_gemini env content = Ok res
               /\ is_finite (confidence res) = false)
      \/ (exists response,
             encode_body env (batch_texts response) = Raise e
             /\ length (filter is_model_call effects) = count response
             /\ 0 < count response)
  | (Ok response, effects) =>
      count response = length (results response)
      /\ 0 < count response
      /\ length (filter is_model_call effects) = count response
      /\ Forall (fun r => valid_classification (result_body r)) (results response)
      /\ Forall (fun r => is_finite (confidence (result_body r)) = true)
                (results response)
  end.
Proof.
  destruct (texts_phase env texts) as [arr|e] eqn:Ht.
  2:{ rewrite (analyze_batch_bad_texts env texts files e Ht). left.
      split; [exact (texts_phase_raise env texts e Ht)|constructor]. }
  destruct (text_items env arr) as [from_texts|e] eqn:Ei.
  2:{ rewrite (analyze_batch_texts_loop_raises env texts files arr e Ht Ei).
      right. left. split; [reflexivity|].
      destruct (text_items_raise env arr e Ei) as (i & s & Hn & Hne & Hc).
      now exists arr, i, s. }
  assert (Hd : discovered_items env arr files
               = Ok (from_texts ++ fst (file_phase env files)))
    by (unfold discovered_items; now rewrite Ei).
  rewrite (analyze_batch_unfold env texts files arr _ Ht Hd).
  destruct (from_texts ++ fst (file_phase env files)) as [|item items] eqn:Eitems.
  { left. split; [eauto|apply file_reads_only_reads]. }
  rewrite <- Eitems. set (all := from_texts ++ fst (file_phase env files)) in *.
  assert (Hlen : 0 < length all) by (rewrite Eitems; simpl; lia).
  assert (Hcalls : length (filter is_model_call (file_reads env files ++ model_calls all))
                   = length all).
  { rewrite filter_model_calls by apply file_reads_only_reads.
    unfold model_calls. now rewrite length_map. }
  rewrite render_batch. cbn [results response_of].
  destruct (forallb renderable (batch_results env all)) eqn:Ef.
  - destruct (encode_body env (batch_texts (response_of env all))) as [[]|e] eqn:Ee;
      cbn [bind].
    + cbn [count results response_of]. unfold batch_results in *. rewrite length_map.
      split; [reflexivity|]. split; [exact Hlen|]. split; [exact Hcalls|]. split.
      * apply Forall_forall. intros r Hr.
        apply in_map_iff in Hr as (it & <- & _). apply classify_item_valid.
      * apply Forall_forall. intros r Hr.
        rewrite forallb_forall in Ef. exact (Ef r Hr).
    + right. right. right. exists (response_of env all).
      split; [exact Ee|]. split; [exact Hcalls|exact Hlen].
  - right. right. left. split; [reflexivity|].
    apply forallb_false_exists in Ef as (r & Hr & Hf).
    apply in_map_iff in Hr as (it & <- & Hin).
    unfold renderable, classify_item in Hf.
    destruct (classify_with_gemini env (item_content it)) as [res|e] eqn:Ec;
      [|discriminate Hf].
    exists (item_content it), res. split; [|split; [exact Ec|exact Hf]].
    apply in_or_app. right. unfold model_calls.
    apply in_map_iff. now exists it.
Qed.

(** The batch and the single call on markup the parser rejects: the loop
    over the texts is in no [try] block, so that the exception ends the
    batch before any file is read, and [analyze] fails in the same way;
    the loop over the files catches it and goes on without the file. *)
Example rejected_markup_outcomes :
  analyze_batch rejecting (Some marked_up_texts) (Some [note_file])
  = (Raise (Exc LibraryError "ParserRejectedMarkup"), [])
  /\ analyze rejecting (Some marked_up) None
     = (Raise (Exc LibraryError "ParserRejectedMarkup"), [])
  /\ file_items rejecting [{| filename := Some (lit "nota.txt");
                              file_bytes := encode marked_up |}]
     = ([], [FileRead (Some (lit "nota.txt"))]).
Proof. repeat split; vm_compute; reflexivity. Qed.

(** What a single call can do.  It fails with the status 400 or 415
    without having called the model; or with an exception the cleaner
    raised, again without having called the model; or it calls the model
    exactly once, as its last effect, on a cleaned text of at least 10
    characters, and its result is the rendering of that classification:
    the exception the classification raised, the [ValueError] of the
    rendering when its confidence is not finite, and otherwise the
    classification, or the exception of the encoding of the body.  It reads
    at most one upload. *)
Theorem analyze_outcomes (env : library) (text : option str) (file : option upload_file) :
  (exists status detail,
      (status = 400 \/ status = 415)
      /\ fst (analyze env text file) = Raise (HTTPException status detail)
      /\ Forall (fun ev => is_model_call ev = false) (snd (analyze env text file))
      /\ length (snd (analyze env text file)) <= 1)
  \/ (exists raw e,
         clean_email_text env raw = Raise e
         /\ fst (analyze env text file) = Raise e
         /\ Forall (fun ev => is_model_call ev = false) (snd (analyze env text file))
         /\ length (snd (analyze env text file)) <= 1)
  \/ (exists content reads,
         snd (analyze env text file) = reads ++ [ModelCall content]
         /\ Forall (fun ev => is_model_call ev = false) reads
         /\ length reads <= 1
         /\ 10 <= length content /\ cleaned content
         /\ fst (analyze env text file)
            = match classify_with_gemini env content with
              | Ok result =>
                  if is_finite (confidence result)
                  then _ <- encode_body env (classification_texts result) ;; Ok result
                  else Raise (Exc ValueError OUT_OF_RANGE)
              | Raise e => Raise e
              end).
Proof.
  assert (Hroute : forall (raw : str) (reads : list event),
             Forall (fun ev => is_model_call ev = false) reads -> length reads <= 1 ->
             let out := match clean_email_text env raw with
                        | Raise e => (Raise e, reads)
                        | Ok content =>
                            if is_empty content
                            then (Raise (HTTPException 400 EMPTY_CONTENT), reads)
                            else (result <- classify_with_gemini env content ;;
                                  JSONResponse env classification_floats classification_texts result,
                                  reads ++ [ModelCall content])
                        end in
             (exists status detail,
                 (status = 400 \/ status = 415)
                 /\ fst out = Raise (HTTPException status detail)
                 /\ Forall (fun ev => is_model_call ev = false) (snd out)
                 /\ length (snd out) <= 1)
             \/ (exists raw' e,
                    clean_email_text env raw' = Raise e
                    /\ fst out = Raise e
                    /\ Forall (fun ev => is_model_call ev = false) (snd out)
                    /\ length (snd out) <= 1)
             \/ (exists content reads',
                    snd out = reads' ++ [ModelCall content]
                    /\ Forall (fun ev => is_model_call ev = false) reads'
                    /\ length reads' <= 1
                    /\ 10 <= length content /\ cleaned content
                    /\ fst out
                       = match classify_with_gemini env content with
                         | Ok result =>
                             if is_finite (confidence result)
                             then _ <- encode_body env (classification_texts result) ;;
                                  Ok result
                             else Raise (Exc ValueError OUT_OF_RANGE)
                         | Raise e => Raise e
                         end)).
  { intros raw reads Hr Hl. cbv zeta.
    destruct (clean_email_text env raw) as [content|e] eqn:Ec.
    - destruct (clean_email_text_shape env raw content Ec) as [->|[Hc Hlen]].
      + left. exists 400, EMPTY_CONTENT. simpl. auto.
      + destruct content as [|a s]; [simpl in Hlen; lia|].
        right. right. exists (a :: s), reads. cbn [is_empty fst snd].
        repeat (split; [assumption || reflexivity|]).
        destruct (classify_with_gemini env (a :: s)) as [result|]; [|reflexivity].
        cbn [bind]. unfold JSONResponse, classification_floats. cbn [forallb].
        now rewrite andb_true_r.
    - right. left. exists raw, e. cbn [fst snd]. auto. }
  destruct file as [f|].
  - rewrite analyze_file.
    destruct (supported_name (name_or_empty f)) eqn:Es; cbn [negb].
    + destruct (read_file_bytes_to_text_ok env (name_or_empty f) (file_bytes f))
        as [raw ->].
      apply (Hroute raw [FileRead (filename f)]); [repeat constructor|simpl; lia].
    + left. exists 415, UNSUPPORTED. simpl. repeat split; auto.
  - rewrite analyze_text. destruct (option_truthy text); cbn [negb].
    + apply (Hroute _ []); [constructor|simpl; lia].
    + left. exists 400, SEND_SOMETHING. simpl. repeat split; auto.
Qed.

(** What [analyze] rejects: a call with no text (or an empty one) and no
    file fails with 400 and has no effect; a file whose name is missing or
    does not end in [.pdf] or [.txt] is read and then rejected with 415,
    also when a text is supplied with it; and a text whose cleaned form is
    empty fails with 400 before any call to the model. *)
Theorem analyze_rejections (env : library) :
  (forall text, option_truthy text = false ->
                analyze env text None = (Raise (HTTPException 400 SEND_SOMETHING), []))
  /\ (forall text f, named_and_supported f = false ->
                     analyze env text (Some f)
                     = (Raise (HTTPException 415 UNSUPPORTED), [FileRead (filename f)]))
  /\ (forall t, t <> [] -> clean_email_text env t = Ok [] ->
                analyze env (Some t) None = (Raise (HTTPException 400 EMPTY_CONTENT), [])).
Proof.
  unfold analyze. split; [|split].
  - intros text ->. reflexivity.
  - intros text f Hf. rewrite andb_false_r. unfold named_and_supported in Hf.
    destruct (filename f) as [[|c n]|]; try reflexivity. now rewrite Hf.
  - intros t Ht Hc. destruct t as [|c t]; [congruence|]. cbn [option_truthy negb andb].
    now rewrite Hc.
Qed.

Lemma analyze_rejections_witness :
  analyze offline (Some status_question) (Some spreadsheet)
  = (Raise (HTTPException 415 UNSUPPORTED), [FileRead (Some (lit "planilha.xlsx"))]).
Proof.
  exact (proj1 (proj2 (analyze_rejections offline))
           (Some status_question) spreadsheet eq_refl).
Defined.

(** ** One item, alone or in a batch *)

Lemma render_classification (env : library) (res : classification) :
  JSONResponse env classification_floats classification_texts res
  = if is_finite (confidence res)
    then _ <- encode_body env (classification_texts res) ;; Ok res
    else Raise (Exc ValueError OUT_OF_RANGE).
Proof.
  unfold JSONResponse, classification_floats. cbn [forallb]. now rewrite andb_true_r.
Qed.

Lemma batch_of_one (env : library) (reads : list event) (id content : str) :
  let single := (result <- classify_with_gemini env content ;;
                 JSONResponse env classification_floats classification_texts result,
                 reads ++ [ModelCall content]) in
  let batch := (JSONResponse env batch_floats batch_texts
                  (response_of env [{| item_id := id; item_content := content |}]),
                reads ++ model_calls [{| item_id := id; item_content := content |}]) in
  snd batch = snd single
  /\ (forall res,
         classify_with_gemini env content = Ok res -> is_finite (confidence res) = true ->
         (encode_body env (classification_texts res) = Ok tt -> fst single = Ok res)
         /\ (forall response,
               response = {| count := 1;
                             results := [{| result_id := id; result_body := res |}] |} ->
               encode_body env (batch_texts response) = Ok tt ->
               fst batch = Ok response))
  /\ (forall res,
         classify_with_gemini env content = Ok res -> is_finite (confidence res) = false ->
         fst single = Raise (Exc ValueError OUT_OF_RANGE)
         /\ fst batch = Raise (Exc ValueError OUT_OF_RANGE))
  /\ (forall e,
         classify_with_gemini env content = Raise e ->
         fst single = Raise e
         /\ (forall response,
               response = {| count := 1; results := [degraded id e] |} ->
               encode_body env (batch_texts response) = Ok tt ->
               fst batch = Ok response)).
Proof.
  cbv zeta. cbn [fst snd]. rewrite render_batch.
  unfold response_of, batch_results, model_calls, renderable, classify_item.
  cbn [map results forallb item_content item_id length].
  split; [reflexivity|]. split; [|split].
  - intros res Hc Hf. rewrite Hc. cbn [bind result_body].
    rewrite render_classification, Hf. split.
    + now intros ->.
    + intros response -> He. cbn [andb]. now rewrite He.
  - intros res Hc Hf. rewrite Hc. cbn [bind result_body].
    rewrite render_classification, Hf. now split.
  - intros e Hc. rewrite Hc. cbn [bind]. split; [reflexivity|].
    intros response -> He. cbn [degraded result_body confidence is_finite float_zero andb].
    now rewrite He.
Qed.

(** A batch of one text and [analyze] on that text, when the cleaned text
    is not empty: both make the same call to the model.  When the
    classification returns a finite confidence, [analyze] returns it and
    the batch stores it under the id [text-0], each if its body can be
    encoded; when it returns one that is not finite, both fail with the
    [ValueError] of the rendering; when it raises, [analyze] raises the
    same exception and the batch stores the degraded result. *)
Theorem batch_of_one_text (env : library) (texts t content : str) :
  texts <> [] ->
  json_loads env texts = Ok (JArr [JStr t]) ->
  clean_email_text env t = Ok content ->
  content <> [] ->
  snd (analyze_batch env (Some texts) None) = snd (analyze env (Some t) None)
  /\ (forall res,
         classify_with_gemini env content = Ok res -> is_finite (confidence res) = true ->
         (encode_body env (classification_texts res) = Ok tt ->
          fst (analyze env (Some t) None) = Ok res)
         /\ (forall response,
               response = {| count := 1;
                             results := [{| result_id := lit "text-0";
                                            result_body := res |}] |} ->
               encode_body env (batch_texts response) = Ok tt ->
               fst (analyze_batch env (Some texts) None) = Ok response))
  /\ (forall res,
         classify_with_gemini env content = Ok res -> is_finite (confidence res) = false ->
         fst (analyze env (Some t) None) = Raise (Exc ValueError OUT_OF_RANGE)
         /\ fst (analyze_batch env (Some texts) None) = Raise (Exc ValueError OUT_OF_RANGE))
  /\ (forall e,
         classify_with_gemini env content = Raise e ->
         fst (analyze env (Some t) None) = Raise e
         /\ (forall response,
               response = {| count := 1; results := [degraded (lit "text-0") e] |} ->
               encode_body env (batch_texts response) = Ok tt ->
               fst (analyze_batch env (Some texts) None) = Ok response)).
Proof.
  intros Hne Hj Hc Hcontent.
  assert (Ht : texts_phase env (Some texts) = Ok [JStr t]).
  { unfold texts_phase, parse_texts. destruct texts; [congruence|].
    cbn [option_truthy]. now rewrite Hj. }
  assert (Hs : strip t <> []).
  { intros E. rewrite (blank_cleans_to_empty env t E) in Hc. congruence. }
  assert (Hd : discovered_items env [JStr t] None
               = Ok [{| item_id := lit "text-0"; item_content := content |}]).
  { unfold discovered_items, text_items, enumerate, file_phase.
    cbn [length seq combine for_each].
    destruct (strip t); [congruence|]. cbn [is_empty]. now rewrite Hc. }
  rewrite (analyze_batch_unfold env (Some texts) None _ _ Ht Hd), analyze_text.
  assert (Hn : t <> []) by (intros ->; apply Hs; reflexivity).
  destruct t as [|a t]; [congruence|]. cbn [option_truthy negb].
  rewrite Hc. destruct content as [|b content]; [congruence|]. cbn [is_empty].
  exact (batch_of_one env [] (lit "text-0") (b :: content)).
Qed.

Lemma batch_of_one_text_witness :
  fst (analyze one_batch (Some status_question) None) = Ok default_result
  /\ fst (analyze_batch one_batch (Some one_text) None)
     = Ok {| count := 1;
             results := [{| result_id := lit "text-0"; result_body := default_result |}] |}.
Proof.
  destruct (proj1 (proj2 (batch_of_one_text one_batch one_text status_question
                            status_question ltac:(discriminate) eq_refl eq_refl
                            ltac:(discriminate)))
              default_result eq_refl eq_refl) as [H1 H2].
  split; [exact (H1 eq_refl)|exact (H2 _ eq_refl eq_refl)].
Defined.

(** A batch of one upload and [analyze] on that upload, when the upload
    has a supported name and some bytes and the cleaned text of the file is
    not empty: both make the same read and the same call to the model.
    When the classification returns a finite confidence, [analyze] returns
    it and the batch stores it under the file name, each if its body can be
    encoded; when it returns one that is not finite, both fail with the
    [ValueError] of the rendering; when it raises, [analyze] raises the
    same exception and the batch stores the degraded result. *)
Theorem batch_of_one_file (env : library) (text : option str) (f : upload_file)
        (name raw content : str) :
  filename f = Some name ->
  supported_name name = true ->
  file_bytes f <> [] ->
  read_file_bytes_to_text env name (file_bytes f) = Ok raw ->
  clean_email_text env raw = Ok content ->
  content <> [] ->
  snd (analyze_batch env None (Some [f])) = snd (analyze env text (Some f))
  /\ (forall res,
         classify_with_gemini env content = Ok res -> is_finite (confidence res) = true ->
         (encode_body env (classification_texts res) = Ok tt ->
          fst (analyze env text (Some f)) = Ok res)
         /\ (forall response,
               response = {| count := 1;
                             results := [{| result_id := name; result_body := res |}] |} ->
               encode_body env (batch_texts response) = Ok tt ->
               fst (analyze_batch env None (Some [f])) = Ok response))
  /\ (forall res,
         classify_with_gemini env content = Ok res -> is_finite (confidence res) = false ->
         fst (analyze env text (Some f)) = Raise (Exc ValueError OUT_OF_RANGE)
         /\ fst (analyze_batch env None (Some [f])) = Raise (Exc ValueError OUT_OF_RANGE))
  /\ (forall e,
         classify_with_gemini env content = Raise e ->
         fst (analyze env text (Some f)) = Raise e
         /\ (forall response,
               response = {| count := 1; results := [degraded name e] |} ->
               encode_body env (batch_texts response) = Ok tt ->
               fst (analyze_batch env None (Some [f])) = Ok response)).
Proof.
  intros Hname Hsup Hdata Hread Hc Hcontent.
  assert (Hn : name <> []) by (intros ->; discriminate Hsup).
  assert (Hraw : raw <> []).
  { intros ->. apply Hcontent. cbn in Hc. congruence. }
  assert (Hitem : file_item env 0 f
                  = ([{| item_id := name; item_content := content |}],
                     [FileRead (filename f)])).
  { rewrite file_item_unfold. unfold upload_name. rewrite Hname.
    destruct name as [|n0 name0]; [congruence|]. rewrite Hsup. cbn [negb].
    destruct (file_bytes f) as [|b0 data0] eqn:Ed; [congruence|].
    rewrite Hread. destruct raw as [|r0 raw0]; [congruence|]. cbn [is_empty].
    rewrite Hc. destruct content; [congruence|reflexivity]. }
  assert (Hd : discovered_items env [] (Some [f])
               = Ok [{| item_id := name; item_content := content |}]).
  { unfold discovered_items, file_phase, text_items, enumerate.
    cbn [length seq combine for_each bind app].
    rewrite file_items_flat. unfold enumerate. cbn [length seq combine flat_map fst snd].
    now rewrite Hitem. }
  assert (Hr : file_reads env (Some [f]) = [FileRead (filename f)]).
  { unfold file_reads, file_phase. rewrite file_items_flat. unfold enumerate.
    cbn [length seq combine flat_map fst snd]. now rewrite Hitem. }
  rewrite (analyze_batch_unfold env None (Some [f]) [] _ eq_refl Hd), Hr, analyze_file.
  unfold name_or_empty. rewrite Hname, Hsup, Hread, Hc. cbn [negb].
  destruct content as [|b content]; [congruence|]. cbn [is_empty].
  exact (batch_of_one env [FileRead (Some name)] name (b :: content)).
Qed.

Lemma batch_of_one_file_witness :
  fst (analyze flaky None (Some note_file)) = Ok default_result
  /\ fst (analyze_batch flaky None (Some [note_file]))
     = Ok {| count := 1;
             results := [{| result_id := lit "nota.txt"; result_body := default_result |}] |}.
Proof.
  destruct (proj1 (proj2 (batch_of_one_file flaky None note_file (lit "nota.txt")
                            status_question status_question
                            eq_refl eq_refl ltac:(discriminate) eq_refl eq_refl
                            ltac:(discriminate)))
              default_result eq_refl eq_refl) as [H1 H2].
  split; [exact (H1 eq_refl)|exact (H2 _ eq_refl eq_refl)].
Defined.
